(** * Fair Value Gap detection: the [fvgAnalysisAction] server action

    A shallow embedding of [src/actions/fvg-analysis/fvg-analysis.ts] and
    the properties its specification states about it.

    - JavaScript numbers are IEEE 754 binary64 values.  They are modelled
      by the Standard Library's executable specification of binary
      floating point ([SpecFloat]) at precision 53 and maximal exponent
      1024: [+] is [SFadd], [-] is [SFsub], [<] is [SFltb] and [a > b]
      is [SFltb b a] (every comparison with NaN is false).
    - [spec_float] has more inhabitants than there are doubles (a finite
      value may carry a mantissa that is not normalised); [is_number]
      singles out the doubles, and a statement that depends on the
      arithmetic of the numbers assumes it of the input.
    - Array reads are [nth_error]; reading a property of [undefined]
      throws a [TypeError], which the [try]/[catch] of the action turns
      into a failure state after logging to the console.
    - The [for] loop is defined by well-founded recursion on the number
      of windows left, so the embedding is a total function. *)

From Equations Require Import Equations.
From Stdlib Require Import Ascii NArith DecimalString Sorting.Sorted Sorting.Permutation.
From Stdlib Require Import String ZArith List Bool Arith Lia.
From Stdlib Require Import Floats.SpecFloat.
Import ListNotations.

(** ** JavaScript numbers *)

Module Number.

Definition prec : Z := 53.
Definition emax : Z := 1024.

Definition number : Type := spec_float.

(** The values of [spec_float] that are binary64 numbers. *)
Definition is_number (x : number) : bool := valid_binary prec emax x.

Definition add (x y : number) : number := SFadd prec emax x y.
Definition sub (x y : number) : number := SFsub prec emax x y.

(** [x < y], [x > y] and [x <= y] of JavaScript. *)
Definition lt (x y : number) : bool := SFltb x y.
Definition gt (x y : number) : bool := SFltb y x.
Definition le (x y : number) : bool := SFleb x y.

(** The double nearest to an integer literal. *)
Definition of_Z (z : Z) : number := binary_normalize prec emax z 0 false.

Definition zero : number := S754_zero false.

End Number.

Abbreviation number := Number.number.

(** ** The order of binary floating point

    [ord] maps the values of a format that are not NaN to integers: a
    finite value to its multiple of the least positive number of the
    format, an infinity just beyond the finite range.  On the numbers of
    the format the comparison of [SpecFloat] is the comparison of these
    integers ([SFcompare_ord] below). *)

Definition is_nan (x : spec_float) : bool :=
  match x with S754_nan => true | _ => false end.

Definition ord (prec emax : Z) (x : spec_float) : Z :=
  match x with
  | S754_zero _ => 0%Z
  | S754_nan => 0%Z
  | S754_infinity s => cond_Zopp s (2 ^ (emax - emin prec emax))%Z
  | S754_finite s m e => cond_Zopp s (Zpos m * 2 ^ (e - emin prec emax))%Z
  end.

(** Strictly above zero: a positive finite value or plus infinity. *)
Definition is_positive (x : spec_float) : bool :=
  match x with
  | S754_finite false _ _ => true
  | S754_infinity false => true
  | _ => false
  end.

(** ** Data model *)

(** [Candlestick] of [src/actions/market-data/fetch-market-data.ts]. *)
Record Candlestick : Type := mkCandlestick {
  open : number;
  close : number;
  high : number;
  low : number;
  volume : number;
  time : number
}.

Inductive FvgType : Type := bullish | bearish.

(** [FvgAnalysisResult]; the projections live in a module of their own
    because [volume] is also a field of [Candlestick]. *)
Module Fvg.
Record FvgAnalysisResult : Type := mk {
  fvgType : FvgType;
  startTime : number;
  endTime : number;
  gapSize : number;
  volume : number
}.
End Fvg.

Abbreviation FvgAnalysisResult := Fvg.FvgAnalysisResult.

(** [ActionState<T>]: [data] is absent from a failure state. *)
Record ActionState (T : Type) : Type := mkActionState {
  isSuccess : bool;
  message : string;
  data : option T
}.

Arguments mkActionState {T} isSuccess message data.
Arguments isSuccess {T} a.
Arguments message {T} a.
Arguments data {T} a.

(** ** Exceptions and the console *)

Inductive JsError : Type :=
| TypeError (msg : string).

Definition error_message (e : JsError) : string :=
  match e with TypeError msg => msg end.

Inductive completion (A : Type) : Type :=
| Normal (a : A)
| Throw (e : JsError).

Arguments Normal {A} a.
Arguments Throw {A} e.

(** What [console.error] has printed so far. *)
Definition Console : Type := list string.

(** ** The detector *)

(** Reading [.volume] of an array slot; the slot is [undefined] past the
    end of the array. *)
Definition read_volume (c : option Candlestick) : completion number :=
  match c with
  | Some c => Normal (volume c)
  | None => Throw (TypeError "Cannot read properties of undefined (reading 'volume')")
  end.

(** The body of the [for] loop at index [i]: lines 70 to 106.  The three
    volumes are read first, in order; once they are, [candle1] and
    [candle3] are known to be candles and the last branch is not taken. *)
Definition loop_body (candlesticks : list Candlestick) (i : nat)
    (results : list FvgAnalysisResult) : completion (list FvgAnalysisResult) :=
  let candle1 := nth_error candlesticks i in
  let candle2 := nth_error candlesticks (i + 1) in
  let candle3 := nth_error candlesticks (i + 2) in
  match read_volume candle1 with
  | Throw e => Throw e
  | Normal v1 =>
  match read_volume candle2 with
  | Throw e => Throw e
  | Normal v2 =>
  match read_volume candle3 with
  | Throw e => Throw e
  | Normal v3 =>
    let totalVolume := Number.add (Number.add v1 v2) v3 in
    match candle1, candle3 with
    | Some candle1, Some candle3 =>
      let results :=
        if Number.gt (low candle3) (high candle1) then
          let gapSize := Number.sub (low candle3) (high candle1) in
          results ++ [Fvg.mk bullish (time candle1) (time candle3) gapSize totalVolume]
        else results in
      let results :=
        if Number.lt (high candle3) (low candle1) then
          let gapSize := Number.sub (low candle1) (high candle3) in
          results ++ [Fvg.mk bearish (time candle1) (time candle3) gapSize totalVolume]
        else results in
      Normal results
    | _, _ => Throw (TypeError "Cannot read properties of undefined (reading 'low')")
    end
  end end end.

(** [for (let i = ...; i <= candlesticks.length - 3; i++)], from index
    [i] on.  The bound is computed in [Z]: [length - 3] is negative for a
    short array. *)
Equations? loop (candlesticks : list Candlestick) (i : nat)
    (results : list FvgAnalysisResult) : completion (list FvgAnalysisResult)
    by wf (length candlesticks - i) lt :=
  loop candlesticks i results
    with Z_le_dec (Z.of_nat i) (Z.of_nat (length candlesticks) - 3) => {
    | right _ := Normal results
    | left _ with loop_body candlesticks i results => {
      | Throw e := Throw e
      | Normal results' := loop candlesticks (S i) results' } }.
Proof. lia. Qed.

(** The [try] block: lines 56 to 113. *)
Definition try_block (candlesticks : list Candlestick)
  : completion (ActionState (list FvgAnalysisResult)) :=
  let results : list FvgAnalysisResult := [] in
  if (length candlesticks <? 3)%nat then
    Normal (mkActionState true "Not enough data to perform FVG analysis." (Some results))
  else
    match loop candlesticks 0 results with
    | Throw e => Throw e
    | Normal results =>
      Normal (mkActionState true "FVG analysis completed successfully." (Some results))
    end.

(** [fvgAnalysisAction]: the [try] block and its [catch] handler, which
    logs to the console and returns a failure state. *)
Definition fvgAnalysisAction (candlesticks : list Candlestick) (console : Console)
  : ActionState (list FvgAnalysisResult) * Console :=
  match try_block candlesticks with
  | Normal state => (state, console)
  | Throw e =>
    (mkActionState false (error_message e) None,
     console ++ [String.append "Error during FVG analysis: " (error_message e)])
  end.

(** ** The detector, window by window

    A second description of the output, by the windows of the input in
    order; [fvgAnalysisAction_scan] below shows that the loop computes
    it. *)

Definition Window : Type := (Candlestick * Candlestick * Candlestick)%type.

(** The windows of three consecutive candles, by start index. *)
Fixpoint windows (candlesticks : list Candlestick) : list Window :=
  match candlesticks with
  | candle1 :: rest =>
    match rest with
    | candle2 :: candle3 :: _ => (candle1, candle2, candle3) :: windows rest
    | _ => []
    end
  | [] => []
  end.

(** The window that starts at index [i], when the array has one. *)
Definition window_at (candlesticks : list Candlestick) (i : nat) : option Window :=
  match nth_error candlesticks i, nth_error candlesticks (i + 1),
        nth_error candlesticks (i + 2) with
  | Some candle1, Some candle2, Some candle3 => Some (candle1, candle2, candle3)
  | _, _, _ => None
  end.

Definition is_bullish (w : Window) : bool :=
  let '(candle1, _, candle3) := w in Number.gt (low candle3) (high candle1).

Definition is_bearish (w : Window) : bool :=
  let '(candle1, _, candle3) := w in Number.lt (high candle3) (low candle1).

Definition total_volume (w : Window) : number :=
  let '(candle1, candle2, candle3) := w in
  Number.add (Number.add (volume candle1) (volume candle2)) (volume candle3).

Definition bullish_event (w : Window) : FvgAnalysisResult :=
  let '(candle1, _, candle3) := w in
  Fvg.mk bullish (time candle1) (time candle3)
    (Number.sub (low candle3) (high candle1)) (total_volume w).

Definition bearish_event (w : Window) : FvgAnalysisResult :=
  let '(candle1, _, candle3) := w in
  Fvg.mk bearish (time candle1) (time candle3)
    (Number.sub (low candle1) (high candle3)) (total_volume w).

(** The events of one window: the bullish one, then the bearish one. *)
Definition window_events (w : Window) : list FvgAnalysisResult :=
  (if is_bullish w then [bullish_event w] else []) ++
  (if is_bearish w then [bearish_event w] else []).

Definition scan (candlesticks : list Candlestick) : list FvgAnalysisResult :=
  flat_map window_events (windows candlesticks).

(** The message of a success state. *)
Definition success_message (candlesticks : list Candlestick) : string :=
  if (length candlesticks <? 3)%nat
  then "Not enough data to perform FVG analysis."%string
  else "FVG analysis completed successfully."%string.

(** The state the action returns. *)
Definition outcome (candlesticks : list Candlestick) (console : Console)
  : ActionState (list FvgAnalysisResult) :=
  fst (fvgAnalysisAction candlesticks console).

Definition count_windows (p : Window -> bool) (candlesticks : list Candlestick) : nat :=
  length (filter p (windows candlesticks)).

(** A window qualifies when it passes the bullish or the bearish test. *)
Definition qualifies (w : Window) : bool := is_bullish w || is_bearish w.

Definition qualifies_twice (w : Window) : bool := is_bullish w && is_bearish w.

(** A candle is a pair of doubles per field. *)
Definition is_candle (c : Candlestick) : bool :=
  Number.is_number (open c) && Number.is_number (close c) &&
  Number.is_number (high c) && Number.is_number (low c) &&
  Number.is_number (volume c) && Number.is_number (time c).

(** ** Inputs of the test suite and of the examples *)

(** Integer-valued candles, as the test suite writes them. *)
Definition candle (o c h l v t : Z) : Candlestick :=
  mkCandlestick (Number.of_Z o) (Number.of_Z c) (Number.of_Z h)
                (Number.of_Z l) (Number.of_Z v) (Number.of_Z t).

Definition bull1 : Candlestick := candle 90 95 100 85 100 1000.
Definition bull2 : Candlestick := candle 95 98 102 90 150 2000.
Definition bull3 : Candlestick := candle 102 105 108 110 200 3000.

Definition test_bullish : list Candlestick := [bull1; bull2; bull3].

Definition bear1 : Candlestick := candle 120 115 125 110 200 1000.
Definition bear2 : Candlestick := candle 115 112 120 108 180 2000.
Definition bear3 : Candlestick := candle 112 110 105 100 160 3000.

Definition test_bearish : list Candlestick := [bear1; bear2; bear3].

Definition test_multiple : list Candlestick :=
  [ candle 100 105 110 95 100 1000;
    candle 105 107 112 102 150 2000;
    candle 107 110 115 111 200 3000;
    candle 110 108 111 106 120 4000;
    candle 108 107 109 105 130 5000;
    candle 107 104 104 102 140 6000 ].

(** One window that passes both tests: the first candle has its low
    above its high. *)
Definition odd1 : Candlestick := candle 0 0 1 10 1 1000.
Definition odd2 : Candlestick := candle 0 0 0 0 1 2000.
Definition odd3 : Candlestick := candle 0 0 3 5 1 3000.

Definition degenerate : list Candlestick := [odd1; odd2; odd3].

(** Four candles, and the same four with another high in the second
    one, which is the middle candle of the window at 0 and the first
    candle of the window at 1. *)
Definition quad1 : Candlestick := candle 0 0 10 5 1 1000.
Definition quad2 : Candlestick := candle 0 0 12 6 1 2000.
Definition quad2' : Candlestick := candle 0 0 30 6 1 2000.
Definition quad3 : Candlestick := candle 0 0 14 7 1 3000.
Definition quad4 : Candlestick := candle 0 0 25 20 1 4000.

Definition overlapping : list Candlestick := [quad1; quad2; quad3; quad4].
Definition overlapping' : list Candlestick := [quad1; quad2'; quad3; quad4].

(** The bullish test input with other prices in its middle candle. *)
Definition test_bullish' : list Candlestick :=
  [bull1; candle 1 2 3 4 150 2000; bull3].

(** ** Which fields the detector reads *)

(** Index [j] of an array of [n] candles starts a window or ends one. *)
Definition first_or_third (n j : nat) : bool :=
  ((j + 3 <=? n) || (2 <=? j))%nat.

(** Two candles at index [j] that the detector cannot tell apart. *)
Definition agree (n j : nat) (c c' : Candlestick) : Prop :=
  volume c = volume c' /\ time c = time c' /\
  (first_or_third n j = true -> high c = high c' /\ low c = low c').

(** ** The detector on the heap

    The same action with its arrays as objects of a heap: the input is
    a reference to an array of candles, [const results = []] allocates
    an array, [results.push] updates it in place, and the state that is
    returned holds the reference.  In this form the action could read
    or write objects other than its own, so that what it leaves
    untouched is a statement to prove. *)

Definition Ref : Type := nat.

Inductive Obj : Type :=
| CandleArray (items : list Candlestick)
| ResultArray (items : list FvgAnalysisResult).

(** Addresses are positions in the list; a new object goes at the end. *)
Definition Heap : Type := list Obj.

Definition candles_at (h : Heap) (r : Ref) : option (list Candlestick) :=
  match nth_error h r with
  | Some (CandleArray items) => Some items
  | _ => None
  end.

Definition results_at (h : Heap) (r : Ref) : option (list FvgAnalysisResult) :=
  match nth_error h r with
  | Some (ResultArray items) => Some items
  | _ => None
  end.

Fixpoint set_nth (r : Ref) (o : Obj) (h : Heap) : Heap :=
  match h, r with
  | [], _ => []
  | _ :: rest, O => o :: rest
  | x :: rest, S r => x :: set_nth r o rest
  end.

(** [const results = []]. *)
Definition new_results (h : Heap) : Ref * Heap :=
  (length h, h ++ [ResultArray []]).

(** [results.push(event)]; [None] when [results] is not an array of
    events, which the types of the source exclude. *)
Definition push (results : Ref) (event : FvgAnalysisResult) (h : Heap) : option Heap :=
  match results_at h results with
  | Some items => Some (set_nth results (ResultArray (items ++ [event])) h)
  | None => None
  end.

(** [candlesticks.length]. *)
Definition candles_length (h : Heap) (candlesticks : Ref) : nat :=
  match candles_at h candlesticks with
  | Some items => length items
  | None => 0
  end.

(** [if (test) { results.push(event) }]. *)
Definition push_if (test : bool) (results : Ref) (event : FvgAnalysisResult) (h : Heap)
  : option Heap :=
  if test then push results event h else Some h.

(** The body of the loop, lines 70 to 106, reading the candles from the
    heap and pushing to [results] in the heap. *)
Definition loop_body_heap (candlesticks results : Ref) (i : nat) (h : Heap)
  : option (completion unit * Heap) :=
  match candles_at h candlesticks with
  | None => None
  | Some items =>
    let candle1 := nth_error items i in
    let candle2 := nth_error items (i + 1) in
    let candle3 := nth_error items (i + 2) in
    match read_volume candle1 with
    | Throw e => Some (Throw e, h)
    | Normal v1 =>
    match read_volume candle2 with
    | Throw e => Some (Throw e, h)
    | Normal v2 =>
    match read_volume candle3 with
    | Throw e => Some (Throw e, h)
    | Normal v3 =>
      let totalVolume := Number.add (Number.add v1 v2) v3 in
      match candle1, candle3 with
      | Some candle1, Some candle3 =>
        match push_if (Number.gt (low candle3) (high candle1)) results
                (Fvg.mk bullish (time candle1) (time candle3)
                   (Number.sub (low candle3) (high candle1)) totalVolume) h with
        | None => None
        | Some h =>
          match push_if (Number.lt (high candle3) (low candle1)) results
                  (Fvg.mk bearish (time candle1) (time candle3)
                     (Number.sub (low candle1) (high candle3)) totalVolume) h with
          | None => None
          | Some h => Some (Normal tt, h)
          end
        end
      | _, _ =>
        Some (Throw (TypeError "Cannot read properties of undefined (reading 'low')"), h)
      end
    end end end
  end.

Lemma nth_error_set_nth (h : Heap) :
  forall (r r' : Ref) (o : Obj),
    nth_error (set_nth r o h) r' =
    if Nat.eqb r r' then option_map (fun _ => o) (nth_error h r') else nth_error h r'.
Proof.
  induction h as [| x h IH]; intros r r' o.
  - destruct r'; destruct (Nat.eqb r _); destruct r; reflexivity.
  - destruct r as [| r]; destruct r' as [| r']; cbn [set_nth nth_error Nat.eqb option_map];
      try reflexivity.
    apply IH.
Qed.

(** Pushing an event leaves every array of candles as it was. *)
Lemma candles_at_push (results : Ref) (event : FvgAnalysisResult) (h h' : Heap)
    (r : Ref) :
  push results event h = Some h' -> candles_at h' r = candles_at h r.
Proof.
  unfold push. destruct (results_at h results) as [items |] eqn:E; [| discriminate].
  intros H. injection H as <-. unfold candles_at. rewrite nth_error_set_nth.
  destruct (Nat.eqb_spec results r) as [-> | N]; [| reflexivity].
  unfold results_at in E. destruct (nth_error h r) as [[cs | evs] |]; try discriminate E.
  reflexivity.
Qed.

Lemma candles_at_push_if (test : bool) (results : Ref) (event : FvgAnalysisResult)
    (h h' : Heap) (r : Ref) :
  push_if test results event h = Some h' -> candles_at h' r = candles_at h r.
Proof.
  destruct test; cbn [push_if]; [apply candles_at_push |].
  intros H. injection H as <-. reflexivity.
Qed.

Lemma candles_at_loop_body (candlesticks results : Ref) (i : nat) (h h' : Heap)
    (c : completion unit) (r : Ref) :
  loop_body_heap candlesticks results i h = Some (c, h') ->
  candles_at h' r = candles_at h r.
Proof.
  unfold loop_body_heap.
  destruct (candles_at h candlesticks) as [items |]; [| discriminate].
  destruct (read_volume (nth_error items i)); [| intros H; injection H as _ <-; reflexivity].
  destruct (read_volume (nth_error items (i + 1)));
    [| intros H; injection H as _ <-; reflexivity].
  destruct (read_volume (nth_error items (i + 2)));
    [| intros H; injection H as _ <-; reflexivity].
  destruct (nth_error items i) as [c1 |];
    [| intros H; injection H as _ <-; reflexivity].
  destruct (nth_error items (i + 2)) as [c3 |];
    [| intros H; injection H as _ <-; reflexivity].
  destruct (push_if _ results _ h) as [h1 |] eqn:P1; [| discriminate].
  destruct (push_if _ results _ h1) as [h2 |] eqn:P2; [| discriminate].
  intros H. injection H as _ <-.
  rewrite (candles_at_push_if _ _ _ _ _ r P2). exact (candles_at_push_if _ _ _ _ _ r P1).
Qed.

Definition inspect {A : Type} (a : A) : {b : A | a = b} := exist _ a eq_refl.

(** The loop, lines 69 to 107; [candlesticks.length] is read from the
    heap at every turn. *)
Equations? loop_heap (candlesticks results : Ref) (i : nat) (h : Heap)
    : option (completion unit * Heap)
    by wf (candles_length h candlesticks - i) lt :=
  loop_heap candlesticks results i h
    with Z_le_dec (Z.of_nat i) (Z.of_nat (candles_length h candlesticks) - 3) => {
    | right _ := Some (Normal tt, h)
    | left _ with inspect (loop_body_heap candlesticks results i h) => {
      | exist _ None _ := None
      | exist _ (Some (Throw e, h')) _ := Some (Throw e, h')
      | exist _ (Some (Normal _, h')) eq :=
        loop_heap candlesticks results (S i) h' } }.
Proof.
  unfold candles_length. rewrite (candles_at_loop_body _ _ _ _ _ _ candlesticks eq).
  unfold candles_length in l. lia.
Qed.

(** The [try] block on the heap. *)
Definition try_block_heap (candlesticks : Ref) (h : Heap)
  : option (completion (ActionState Ref) * Heap) :=
  let '(results, h) := new_results h in
  match candles_at h candlesticks with
  | None => None
  | Some items =>
    if (length items <? 3)%nat then
      Some (Normal (mkActionState true "Not enough data to perform FVG analysis."
                      (Some results)), h)
    else
      match loop_heap candlesticks results 0 h with
      | None => None
      | Some (Throw e, h) => Some (Throw e, h)
      | Some (Normal _, h) =>
        Some (Normal (mkActionState true "FVG analysis completed successfully."
                        (Some results)), h)
      end
  end.

(** [fvgAnalysisAction] on the heap; [None] when [candlesticks] is not
    an array of candles. *)
Definition fvgAnalysisAction_heap (candlesticks : Ref) (h : Heap) (console : Console)
  : option (ActionState Ref * Heap * Console) :=
  match try_block_heap candlesticks h with
  | None => None
  | Some (Normal state, h) => Some (state, h, console)
  | Some (Throw e, h) =>
    Some (mkActionState false (error_message e) None, h,
          console ++ [String.append "Error during FVG analysis: " (error_message e)])
  end.

(** A heap that holds the candles of the bullish test, and the heap that
    a first run on it leaves. *)
Definition heap_before : Heap := [CandleArray test_bullish].

Definition heap_after : Heap :=
  match fvgAnalysisAction_heap 0 heap_before [] with
  | Some (_, h, _) => h
  | None => heap_before
  end.

(** * The rest of the pipeline

    ** Inputs the detector is meant for *)

(** A candle of doubles whose low is not above its high. *)
Definition well_formed (c : Candlestick) : bool :=
  is_candle c && Number.le (low c) (high c).

(** [a] is timed strictly before [b]. *)
Definition earlier (a b : Candlestick) : Prop :=
  Number.lt (time a) (time b) = true.

(** Event [a] does not start after event [b]. *)
Definition by_start (a b : FvgAnalysisResult) : Prop :=
  Number.le (Fvg.startTime a) (Fvg.startTime b) = true.

(** ** Values off the wire

    What [response.json()] can hand to [validateCandlestickData]: the
    values of JSON, and [undefined].  An object is the list of its own
    properties, each key once. *)

#[warnings="-register-all"]
Inductive JsValue : Type :=
| JsUndefined
| JsNull
| JsBoolean (b : bool)
| JsNumber (x : number)
| JsString (s : string)
| JsArray (items : list JsValue)
| JsObject (props : list (string * JsValue)).

(** The [typeof] operator. *)
Definition typeof (v : JsValue) : string :=
  match v with
  | JsUndefined => "undefined"
  | JsNull => "object"
  | JsBoolean _ => "boolean"
  | JsNumber _ => "number"
  | JsString _ => "string"
  | JsArray _ => "object"
  | JsObject _ => "object"
  end.

(** The six property names [validateCandlestickData] reads.  None of
    them is a property of the built-in prototypes, so reading one off a
    boolean, a number, a string or an array gives [undefined]. *)
Inductive CandleField : Type :=
| f_open | f_close | f_high | f_low | f_volume | f_time.

Definition field_name (f : CandleField) : string :=
  match f with
  | f_open => "open"
  | f_close => "close"
  | f_high => "high"
  | f_low => "low"
  | f_volume => "volume"
  | f_time => "time"
  end.

Fixpoint lookup (key : string) (props : list (string * JsValue)) : JsValue :=
  match props with
  | [] => JsUndefined
  | (k, v) :: rest => if String.eqb k key then v else lookup key rest
  end.

(** [item.open] and the like: a [TypeError] on [undefined] and [null]. *)
Definition read_field (item : JsValue) (f : CandleField) : completion JsValue :=
  match item with
  | JsUndefined =>
    Throw (TypeError (String.append "Cannot read properties of undefined (reading '"
                        (String.append (field_name f) "')")))
  | JsNull =>
    Throw (TypeError (String.append "Cannot read properties of null (reading '"
                        (String.append (field_name f) "')")))
  | JsObject props => Normal (lookup (field_name f) props)
  | JsBoolean _ | JsNumber _ | JsString _ | JsArray _ => Normal JsUndefined
  end.

(** [typeof item.f !== "number"]. *)
Definition field_not_number (item : JsValue) (f : CandleField) : completion bool :=
  match read_field item f with
  | Throw e => Throw e
  | Normal v => Normal (negb (String.eqb (typeof v) "number"))
  end.

(** [a || b], where [b] is evaluated only when [a] is false. *)
Definition or_else (a : completion bool) (b : completion bool) : completion bool :=
  match a with
  | Throw e => Throw e
  | Normal true => Normal true
  | Normal false => b
  end.

(** The condition of the [if] at lines 49 to 56. *)
Definition item_rejected (item : JsValue) : completion bool :=
  or_else (field_not_number item f_open)
  (or_else (field_not_number item f_close)
  (or_else (field_not_number item f_high)
  (or_else (field_not_number item f_low)
  (or_else (field_not_number item f_volume)
           (field_not_number item f_time))))).

(** [for (const item of data)], lines 48 to 60. *)
Fixpoint validate_items (items : list JsValue) : completion bool :=
  match items with
  | [] => Normal true
  | item :: rest =>
    match item_rejected item with
    | Throw e => Throw e
    | Normal true => Normal false
    | Normal false => validate_items rest
    end
  end.

Definition validateCandlestickData (data : JsValue) : completion bool :=
  match data with
  | JsArray items => validate_items items
  | _ => Normal false
  end.

(** The candle an object is, when its six fields are numbers: what the
    type guard [data is Candlestick[]] lets the caller assume. *)
Definition number_of (v : JsValue) : option number :=
  match v with JsNumber x => Some x | _ => None end.

Definition as_candlestick (item : JsValue) : option Candlestick :=
  match item with
  | JsObject props =>
    match number_of (lookup "open" props), number_of (lookup "close" props),
          number_of (lookup "high" props), number_of (lookup "low" props),
          number_of (lookup "volume" props), number_of (lookup "time" props) with
    | Some o, Some c, Some h, Some l, Some v, Some t => Some (mkCandlestick o c h l v t)
    | _, _, _, _, _, _ => None
    end
  | _ => None
  end.

Fixpoint as_candlesticks_items (items : list JsValue) : option (list Candlestick) :=
  match items with
  | [] => Some []
  | item :: rest =>
    match as_candlestick item, as_candlesticks_items rest with
    | Some c, Some cs => Some (c :: cs)
    | _, _ => None
    end
  end.

Definition as_candlesticks (data : JsValue) : option (list Candlestick) :=
  match data with
  | JsArray items => as_candlesticks_items items
  | _ => None
  end.

(** A candle as an object of six numbers. *)
Definition candle_object (c : Candlestick) : JsValue :=
  JsObject [ ("open"%string, JsNumber (open c)); ("close"%string, JsNumber (close c));
             ("high"%string, JsNumber (high c)); ("low"%string, JsNumber (low c));
             ("volume"%string, JsNumber (volume c)); ("time"%string, JsNumber (time c)) ].

(** An item whose property reads throw. *)
Definition is_nullish (v : JsValue) : bool :=
  match v with JsUndefined | JsNull => true | _ => false end.

(** ** The world outside the actions

    The console, the requests sent with [fetch] and the timers awaited
    are the state the actions thread.  The network answers the [n]-th
    request of a run with [network n request]; environment variables
    and the clock are read from an [Env]. *)

(** What a [catch] clause receives: an [Error] object with its message,
    or any other value. *)
Inductive Thrown : Type :=
| ErrorObject (message : string)
| NotAnError (v : JsValue).

Definition thrown_of (e : JsError) : Thrown := ErrorObject (error_message e).

(** [error instanceof Error ? error.message : fallback]. *)
Definition message_or (t : Thrown) (fallback : string) : string :=
  match t with
  | ErrorObject message => message
  | NotAnError _ => fallback
  end.

(** A promise that has settled. *)
Inductive settled (A : Type) : Type :=
| Resolved (a : A)
| Rejected (t : Thrown).

Arguments Resolved {A} a.
Arguments Rejected {A} t.

Record Response : Type := mkResponse {
  ok : bool;
  status : N;
  text : settled string;
  json : settled JsValue
}.

(** The arguments of a [fetch] call; [body] is the value handed to
    [JSON.stringify]. *)
Record Request : Type := mkRequest {
  url : string;
  method : string;
  headers : list (string * string);
  body : option JsValue
}.

Definition Network : Type := nat -> Request -> settled Response.

Inductive LogLevel : Type := level_log | level_error.

Inductive LogArg : Type :=
| Text (s : string)
| Caught (t : Thrown).

(** One call of [console.log] or [console.error] with its arguments. *)
Record LogEntry : Type := mkLogEntry {
  level : LogLevel;
  args : list LogArg
}.

Record World : Type := mkWorld {
  logged : list LogEntry;
  requests : list Request;
  timers : list N
}.

Definition console_error (entry : list LogArg) (w : World) : World :=
  mkWorld (logged w ++ [mkLogEntry level_error entry]) (requests w) (timers w).

Definition console_log (entry : list LogArg) (w : World) : World :=
  mkWorld (logged w ++ [mkLogEntry level_log entry]) (requests w) (timers w).

(** [await fetch(...)]. *)
Definition fetch (network : Network) (request : Request) (w : World)
  : settled Response * World :=
  (network (length (requests w)) request,
   mkWorld (logged w) (requests w ++ [request]) (timers w)).

(** [await new Promise(resolve => setTimeout(resolve, ms))]. *)
Definition sleep (ms : N) (w : World) : World :=
  mkWorld (logged w) (requests w) (timers w ++ [ms]).

(** [process.env] and the clock. *)
Record Env : Type := mkEnv {
  BINGX_API_URL : option string;
  BINGX_API_KEY : option string;
  BINGX_API_SECRET : option string;
  EMAIL_API_URL : option string;
  EMAIL_API_KEY : option string;
  now : N
}.

(** [!value] for a string or [undefined]. *)
Definition falsy (value : option string) : bool :=
  match value with
  | None => true
  | Some s => String.eqb s ""
  end.

(** The decimal digits of an integer: [toString] of a timestamp and of a
    status code. *)
Definition decimal (n : N) : string := NilEmpty.string_of_uint (N.to_uint n).

(** ** The query string of [fetchMarketDataAction] *)

(** The characters [encodeURIComponent] leaves alone. *)
Definition unreserved (c : ascii) : bool :=
  let n := nat_of_ascii c in
  ((65 <=? n) && (n <=? 90)) || ((97 <=? n) && (n <=? 122)) ||
  ((48 <=? n) && (n <=? 57)) ||
  existsb (Ascii.eqb c) ["-"; "_"; "."; "!"; "~"; "*"; "'"; "("; ")"]%char.

Definition hex_digit (n : nat) : ascii :=
  if n <? 10 then ascii_of_nat (48 + n) else ascii_of_nat (55 + n).

Definition percent_encode (c : ascii) : string :=
  let n := nat_of_ascii c in
  String "%" (String (hex_digit (n / 16)) (String (hex_digit (n mod 16)) EmptyString)).

(** [encodeURIComponent] on a string held as its UTF-8 bytes: every
    byte of a character that is not unreserved becomes [%XX]. *)
Fixpoint encodeURIComponent (s : string) : string :=
  match s with
  | EmptyString => EmptyString
  | String c rest =>
    String.append (if unreserved c then String c EmptyString else percent_encode c)
                  (encodeURIComponent rest)
  end.

(** [Array.prototype.sort] without a comparator, on strings. *)
Fixpoint insert_sorted (key : string) (keys : list string) : list string :=
  match keys with
  | [] => [key]
  | k :: rest => if String.leb key k then key :: keys else k :: insert_sorted key rest
  end.

Fixpoint sort_strings (keys : list string) : list string :=
  match keys with
  | [] => []
  | k :: rest => insert_sorted k (sort_strings rest)
  end.

(** [paramsObj[key]]. *)
Fixpoint param (key : string) (paramsObj : list (string * string)) : option string :=
  match paramsObj with
  | [] => None
  | (k, v) :: rest => if String.eqb k key then Some v else param key rest
  end.

(** [encodeURIComponent(paramsObj[key])]; [undefined] is encoded as its
    name. *)
Definition encoded_param (key : string) (paramsObj : list (string * string)) : string :=
  match param key paramsObj with
  | Some v => encodeURIComponent v
  | None => "undefined"
  end.

(** [buildQueryString], lines 89 to 94. *)
Definition buildQueryString (paramsObj : list (string * string)) : string :=
  String.concat "&"
    (map (fun key => String.append key (String.append "=" (encoded_param key paramsObj)))
         (sort_strings (map fst paramsObj))).

(** The [params] object of line 81. *)
Definition klines_params (timestamp : N) : list (string * string) :=
  [ ("symbol", "BTC-USDT"); ("interval", "1m"); ("limit", "1440");
    ("timestamp", decimal timestamp) ]%string.

(** ** [fetchMarketDataAction] *)

Definition credentials_missing : string :=
  "Las credenciales del API de BingX no están configuradas en las variables de entorno.".

Definition invalid_format : string :=
  "El formato de datos de candlestick recibido es inválido.".

Definition market_data_ok : string :=
  "Datos de mercado obtenidos y validados exitosamente.".

Definition klines_request (hmac : string -> string -> string)
    (baseUrl apiKey apiSecret : string) (timestamp : N) : Request :=
  let queryString := buildQueryString (klines_params timestamp) in
  let signature := hmac apiSecret queryString in
  let endpoint :=
    String.append baseUrl
      (String.append "/openApi/swap/v3/quote/klines?"
         (String.append queryString (String.append "&signature=" signature))) in
  mkRequest endpoint "GET"
    [("Content-Type", "application/json"); ("X-BX-APIKEY", apiKey)]%string None.

(** The [try] block of [fetchMarketDataAction], lines 71 to 134;
    [hmac secret text] stands for the hexadecimal HMAC-SHA256 digest. *)
Definition fetch_market_data_try (hmac : string -> string -> string)
    (env : Env) (network : Network) (w : World)
  : settled (ActionState JsValue) * World :=
  match BINGX_API_URL env, BINGX_API_KEY env, BINGX_API_SECRET env with
  | Some baseUrl, Some apiKey, Some apiSecret =>
    if falsy (Some baseUrl) || falsy (Some apiKey) || falsy (Some apiSecret)
    then (Rejected (ErrorObject credentials_missing), w)
    else
      let '(response, w) :=
        fetch network (klines_request hmac baseUrl apiKey apiSecret (now env)) w in
      match response with
      | Rejected t => (Rejected t, w)
      | Resolved response =>
        if negb (ok response) then
          match text response with
          | Rejected t => (Rejected t, w)
          | Resolved errorText =>
            (Rejected (ErrorObject
               (String.append "El API de BingX respondió con el estado "
                  (String.append (decimal (status response))
                     (String.append ": " errorText)))), w)
          end
        else
          match json response with
          | Rejected t => (Rejected t, w)
          | Resolved data =>
            match validateCandlestickData data with
            | Throw e => (Rejected (thrown_of e), w)
            | Normal false => (Rejected (ErrorObject invalid_format), w)
            | Normal true =>
              (Resolved (mkActionState true market_data_ok (Some data)), w)
            end
          end
      end
  | _, _, _ => (Rejected (ErrorObject credentials_missing), w)
  end.

Definition fetchMarketDataAction (hmac : string -> string -> string)
    (env : Env) (network : Network) (w : World) : ActionState JsValue * World :=
  match fetch_market_data_try hmac env network w with
  | (Resolved state, w) => (state, w)
  | (Rejected error, w) =>
    (mkActionState false
       (message_or error "Error desconocido al obtener datos de mercado.") None,
     console_error [Text "Error al obtener datos de mercado:"; Caught error] w)
  end.

(** The three credentials are set and not empty. *)
Definition credentials (env : Env) (baseUrl apiKey apiSecret : string) : Prop :=
  BINGX_API_URL env = Some baseUrl /\ BINGX_API_KEY env = Some apiKey /\
  BINGX_API_SECRET env = Some apiSecret /\
  baseUrl <> EmptyString /\ apiKey <> EmptyString /\ apiSecret <> EmptyString.

Definition test_env : Env :=
  mkEnv (Some "http://dummy-api.com"%string) (Some "dummy-key"%string)
        (Some "dummy-secret"%string)
        (Some "http://mail.test/send"%string) (Some "mail-key"%string) 1670000000000.

Definition empty_world : World := mkWorld [] [] [].

(** An environment whose key is empty and whose secret is unset. *)
Definition no_key_env : Env :=
  mkEnv (Some "http://dummy-api.com"%string) (Some EmptyString) None None None 0.


(** ** Notifications: [src/actions/notifications/fvg-notifications.ts] *)

Local Open Scope string_scope.

(** [state.message], where a parameter is called [message] too. *)
Definition message_of {T : Type} (state : ActionState T) : string := message state.

(** A backtick template is the concatenation of its pieces. *)
Definition template (pieces : list string) : string := String.concat "" pieces.

(** [sendInAppNotificationAction]: [console.log] does not throw, so the
    [catch] handler has nothing to catch. *)
Definition sendInAppNotificationAction (userId title message : string) (w : World)
  : ActionState unit * World :=
  (mkActionState true "In-app notification dispatched successfully." (Some tt),
   console_log [Text (template ["In-App Notification for User "; userId; ": ";
                                title; " - "; message])] w).

Definition email_config_missing : string :=
  "Email service configuration is missing. Please set EMAIL_API_URL and EMAIL_API_KEY in .env.local.".

(** The [payload] object of line 90. *)
Definition email_payload (recipientEmail subject message : string) : JsValue :=
  JsObject
    [ ("personalizations"%string,
       JsArray [JsObject [("to"%string,
                           JsArray [JsObject [("email"%string, JsString recipientEmail)]])]]);
      ("from"%string, JsObject [("email"%string, JsString "rodrigo@balancebowen.com")]);
      ("subject"%string, JsString subject);
      ("content"%string,
       JsArray [JsObject [("type"%string, JsString "text/plain");
                          ("value"%string, JsString message)]]) ].

Definition email_request (emailApiUrl emailApiKey : string) (payload : JsValue) : Request :=
  mkRequest emailApiUrl "POST"
    [ ("Content-Type"%string, "application/json"%string);
      ("Authorization"%string, template ["Bearer "; emailApiKey]) ]
    (Some payload).

Definition maxRetries : nat := 3.

(** The [try] block inside the retry loop, lines 119 to 138. *)
Definition email_attempt (network : Network) (request : Request) (w : World)
  : settled (ActionState unit) * World :=
  let '(response, w) := fetch network request w in
  match response with
  | Rejected t => (Rejected t, w)
  | Resolved response =>
    if negb (ok response) then
      match text response with
      | Rejected t => (Rejected t, w)
      | Resolved errorText =>
        (Rejected (ErrorObject
           (template ["Email service responded with status ";
                      decimal (status response); ": "; errorText])), w)
      end
    else
      (Resolved (mkActionState true "Email notification sent successfully." (Some tt)), w)
  end.

(** The [catch] clause of the loop, lines 140 to 144, after
    [attempt++]. *)
Definition email_caught (attempt : nat) (error : Thrown) (w : World) : World :=
  sleep 1000
    (console_error
       [Text (template ["Attempt "; decimal (N.of_nat attempt);
                        " - Error sending email notification:"]);
        Caught error] w).

(** [lastError instanceof Error ? lastError.message : ...]; [lastError]
    starts as [null]. *)
Definition last_error_message (lastError : option Thrown) : string :=
  match lastError with
  | Some error => message_or error "Unknown error sending email notification."
  | None => "Unknown error sending email notification."
  end.

(** [while (attempt < maxRetries)] and the [return] after it, lines 117
    to 152. *)
Equations? email_loop (network : Network) (request : Request) (attempt : nat)
    (lastError : option Thrown) (w : World) : ActionState unit * World
    by wf (maxRetries - attempt) lt :=
  email_loop network request attempt lastError w with lt_dec attempt maxRetries => {
    | right _ := (mkActionState false (last_error_message lastError) None, w)
    | left _ with email_attempt network request w => {
      | (Resolved state, w') := (state, w')
      | (Rejected error, w') :=
        email_loop network request (S attempt) (Some error)
          (email_caught (S attempt) error w') } }.
Proof.
  clear email_loop. unfold maxRetries in l.
  destruct attempt as [| [| [| attempt]]]; cbn; lia.
Qed.

Definition sendEmailNotificationAction (recipientEmail subject message : string)
    (env : Env) (network : Network) (w : World) : ActionState unit * World :=
  match EMAIL_API_URL env, EMAIL_API_KEY env with
  | Some emailApiUrl, Some emailApiKey =>
    if falsy (Some emailApiUrl) || falsy (Some emailApiKey)
    then (mkActionState false email_config_missing None, w)
    else
      email_loop network
        (email_request emailApiUrl emailApiKey
           (email_payload recipientEmail subject message))
        0 None w
  | _, _ => (mkActionState false email_config_missing None, w)
  end.

(** [dispatchFvgNotificationsAction], lines 167 to 195. *)
Definition dispatchFvgNotificationsAction (userId recipientEmail title message : string)
    (env : Env) (network : Network) (w : World) : ActionState unit * World :=
  let '(inAppResult, w) := sendInAppNotificationAction userId title message w in
  let w :=
    if negb (isSuccess inAppResult)
    then console_error [Text "Failed to dispatch in-app notification:";
                        Text (message_of inAppResult)] w
    else w in
  let '(emailResult, w) :=
    sendEmailNotificationAction recipientEmail title message env network w in
  if negb (isSuccess emailResult) then
    (mkActionState false
       (template ["Notification dispatch failed: "; message_of emailResult]) None,
     console_error [Text "Failed to send email notification:";
                    Text (message_of emailResult)] w)
  else
    (mkActionState true "Notifications dispatched successfully." (Some tt), w).

Local Close Scope string_scope.

(** What the [n]-th request of a run comes to: the error the loop
    catches, or nothing when the response is [ok]. *)
Definition attempt_error (network : Network) (request : Request) (n : nat)
  : option Thrown :=
  match network n request with
  | Rejected t => Some t
  | Resolved response =>
    if ok response then None
    else match text response with
         | Rejected t => Some t
         | Resolved errorText =>
           Some (ErrorObject
                   (template ["Email service responded with status "%string;
                              decimal (status response); ": "%string; errorText]))
         end
  end.

(** How many of the next [budget] requests, from the [n]-th on, fail
    before one is answered [ok]. *)
Fixpoint failed_attempts (network : Network) (request : Request) (n budget : nat) : nat :=
  match budget with
  | O => O
  | S budget =>
    match attempt_error network request n with
    | None => O
    | Some _ => S (failed_attempts network request (S n) budget)
    end
  end.

(** The entry the [catch] clause logs for the [attempt]-th attempt. *)
Definition attempt_entry (attempt : nat) (error : Thrown) : LogEntry :=
  mkLogEntry level_error
    [Text (String.append "Attempt "
             (String.append (decimal (N.of_nat attempt))
                " - Error sending email notification:"));
     Caught error].

(** The entries logged for the failures counted by [failed_attempts],
    the first of them being attempt number [attempt + 1]. *)
Fixpoint failure_log (network : Network) (request : Request) (n attempt budget : nat)
  : list LogEntry :=
  match budget with
  | O => []
  | S budget =>
    match attempt_error network request n with
    | None => []
    | Some error =>
      attempt_entry (S attempt) error
      :: failure_log network request (S n) (S attempt) budget
    end
  end.

Definition email_sent : ActionState unit :=
  mkActionState true "Email notification sent successfully." (Some tt).

(** The mail settings are set and not empty. *)
Definition email_config (env : Env) (emailApiUrl emailApiKey : string) : Prop :=
  EMAIL_API_URL env = Some emailApiUrl /\ EMAIL_API_KEY env = Some emailApiKey /\
  emailApiUrl <> EmptyString /\ emailApiKey <> EmptyString.

(** A mail service that answers 503 twice and then accepts. *)
Definition flaky_mail : Network :=
  fun n _ =>
    if (n <? 2)%nat
    then Resolved (mkResponse false 503 (Resolved "busy"%string) (Rejected (NotAnError JsNull)))
    else Resolved (mkResponse true 202 (Resolved EmptyString) (Rejected (NotAnError JsNull))).

(** ** The route [GET /api/fetch-market-data]

    [storeFvgResultsAction] writes to the database; here it is the
    function [store] from the events to the state it returns, and the
    route's world records the calls made to it. *)

Inductive ResponseBody (Row : Type) : Type :=
| ErrorBody (error : string)
| StoredBody (message : string) (data : option (list Row)).

Arguments ErrorBody {Row} error.
Arguments StoredBody {Row} message data.

(** [NextResponse.json(body, { status })]; the status is 200 when none
    is given. *)
Record HttpResponse (Row : Type) : Type := mkHttpResponse {
  http_status : N;
  http_body : ResponseBody Row
}.

Arguments mkHttpResponse {Row} http_status http_body.
Arguments http_status {Row} h.
Arguments http_body {Row} h.

Record RouteWorld : Type := mkRouteWorld {
  outside : World;
  analysis_console : Console;
  store_calls : list (list FvgAnalysisResult)
}.

(** The route, lines 31 to 74 of the route file.  The result is [None]
    where the route would hand [fvgAnalysisAction] something that is not
    an array of candles, or [storeFvgResultsAction] something that is
    not an array of events: calls the embedding does not cover.  The
    three actions catch what they throw and return a state, so the
    route's own [catch] has nothing to catch. *)
Definition GET {Row : Type} (store : list FvgAnalysisResult -> ActionState (list Row))
    (hmac : string -> string -> string) (env : Env) (network : Network)
    (w : RouteWorld) : option (HttpResponse Row * RouteWorld) :=
  let '(marketDataResponse, outside') :=
    fetchMarketDataAction hmac env network (outside w) in
  let w := mkRouteWorld outside' (analysis_console w) (store_calls w) in
  if negb (isSuccess marketDataResponse) then
    Some (mkHttpResponse 500 (ErrorBody (message marketDataResponse)), w)
  else
    match data marketDataResponse with
    | None => None
    | Some candlesticks =>
      match as_candlesticks candlesticks with
      | None => None
      | Some candlesticks =>
        let '(fvgAnalysisResponse, console') :=
          fvgAnalysisAction candlesticks (analysis_console w) in
        let w := mkRouteWorld (outside w) console' (store_calls w) in
        if negb (isSuccess fvgAnalysisResponse) then
          Some (mkHttpResponse 500 (ErrorBody (message fvgAnalysisResponse)), w)
        else
          match data fvgAnalysisResponse with
          | None => None
          | Some fvgResults =>
            let storeResponse := store fvgResults in
            let w := mkRouteWorld (outside w) (analysis_console w)
                       (store_calls w ++ [fvgResults]) in
            if negb (isSuccess storeResponse) then
              Some (mkHttpResponse 500 (ErrorBody (message storeResponse)), w)
            else
              Some (mkHttpResponse 200
                      (StoredBody "Market data fetched, analyzed, and stored successfully."
                         (data storeResponse)), w)
          end
      end
    end.

(** A market that answers with the three candles of the bullish test,
    and a store that returns the events it is given. *)
Definition bullish_market : Network :=
  fun _ _ =>
    Resolved (mkResponse true 200 (Resolved EmptyString)
                (Resolved (JsArray (map candle_object test_bullish)))).

Definition echo_store (events : list FvgAnalysisResult)
  : ActionState (list FvgAnalysisResult) :=
  mkActionState true "FVG analysis results stored successfully." (Some events).

Definition fresh_route : RouteWorld := mkRouteWorld empty_world [] [].

(** * Facts about the numbers

    [SFcompare] and [SFsub] at any format with a positive precision
    below the maximal exponent. *)

Section BinaryOrder.

Variables prec emax : Z.
Hypothesis prec_gt_0 : (0 < prec)%Z.
Hypothesis prec_lt_emax : (prec < emax)%Z.

Local Open Scope Z_scope.

Local Abbreviation emin := (emin prec emax).
Local Abbreviation fexp := (fexp prec emax).
Local Abbreviation valid := (valid_binary prec emax).
Local Abbreviation ord := (ord prec emax).

Lemma digits2_pos_bounds (m : positive) :
  2 ^ (Zpos (digits2_pos m) - 1) <= Zpos m < 2 ^ Zpos (digits2_pos m).
Proof.
  induction m as [m IH | m IH | ]; cbn [digits2_pos].
  - rewrite Pos2Z.inj_succ, (Pos2Z.inj_xI m).
    replace (Z.succ (Zpos (digits2_pos m)) - 1) with (Z.succ (Zpos (digits2_pos m) - 1)) by lia.
    rewrite !Z.pow_succ_r by lia. lia.
  - rewrite Pos2Z.inj_succ, (Pos2Z.inj_xO m).
    replace (Z.succ (Zpos (digits2_pos m)) - 1) with (Z.succ (Zpos (digits2_pos m) - 1)) by lia.
    rewrite !Z.pow_succ_r by lia. lia.
  - cbn. lia.
Qed.

Lemma bounded_inv (m : positive) (e : Z) :
  bounded prec emax m e = true ->
  emin <= e <= emax - prec /\
  Zpos (digits2_pos m) <= prec /\
  (emin < e -> Zpos (digits2_pos m) = prec).
Proof.
  unfold bounded, canonical_mantissa, SpecFloat.fexp.
  intros H. apply andb_true_iff in H. destruct H as [Hc He].
  apply Z.eqb_eq in Hc. apply Z.leb_le in He. lia.
Qed.

Lemma finite_ord_bounds (m : positive) (e : Z) :
  bounded prec emax m e = true ->
  0 < Zpos m * 2 ^ (e - emin) < 2 ^ (emax - emin).
Proof.
  intros H. destruct (bounded_inv _ _ H) as (He & Hd & _).
  pose proof (digits2_pos_bounds m) as [_ Hm].
  assert (0 < 2 ^ (e - emin)) by (apply Z.pow_pos_nonneg; lia).
  split; [lia |].
  apply Z.lt_le_trans with (2 ^ Zpos (digits2_pos m) * 2 ^ (e - emin)).
  - apply Z.mul_lt_mono_pos_r; assumption.
  - rewrite <- Z.pow_add_r by lia. apply Z.pow_le_mono_r; lia.
Qed.

Lemma exponent_lt_ord (m1 m2 : positive) (e1 e2 : Z) :
  bounded prec emax m1 e1 = true -> bounded prec emax m2 e2 = true ->
  e1 < e2 ->
  Zpos m1 * 2 ^ (e1 - emin) < Zpos m2 * 2 ^ (e2 - emin).
Proof.
  intros H1 H2 Hlt.
  destruct (bounded_inv _ _ H1) as (He1 & Hd1 & _).
  destruct (bounded_inv _ _ H2) as (He2 & _ & Hn2).
  specialize (Hn2 ltac:(lia)).
  pose proof (digits2_pos_bounds m1) as [_ Hm1].
  pose proof (digits2_pos_bounds m2) as [Hm2 _].
  rewrite Hn2 in Hm2.
  assert (0 < 2 ^ (e1 - emin)) by (apply Z.pow_pos_nonneg; lia).
  assert (0 < 2 ^ (e2 - emin)) by (apply Z.pow_pos_nonneg; lia).
  apply Z.lt_le_trans with (2 ^ Zpos (digits2_pos m1) * 2 ^ (e1 - emin)).
  - apply Z.mul_lt_mono_pos_r; assumption.
  - apply Z.le_trans with (2 ^ (prec - 1) * 2 ^ (e2 - emin)).
    + rewrite <- !Z.pow_add_r by lia. apply Z.pow_le_mono_r; lia.
    + apply Z.mul_le_mono_nonneg_r; lia.
Qed.

Lemma infinity_ord_pos : 0 < 2 ^ (emax - emin).
Proof. apply Z.pow_pos_nonneg; unfold SpecFloat.emin; lia. Qed.

Lemma mantissa_compare (m1 m2 : positive) (q : Z) :
  0 < q ->
  Pos.compare_cont Eq m1 m2 = (Zpos m1 * q ?= Zpos m2 * q).
Proof.
  intros Hq. change (Pos.compare_cont Eq m1 m2) with (Zpos m1 ?= Zpos m2).
  symmetry. destruct (Z.compare_spec (Zpos m1) (Zpos m2)) as [E | L | G].
  - rewrite E. apply Z.compare_refl.
  - apply Z.compare_lt_iff. apply Z.mul_lt_mono_pos_r; assumption.
  - apply Z.compare_gt_iff. apply Z.mul_lt_mono_pos_r; assumption.
Qed.

Lemma finite_compare (m1 m2 : positive) (e1 e2 : Z) :
  bounded prec emax m1 e1 = true -> bounded prec emax m2 e2 = true ->
  match e1 ?= e2 with
  | Lt => Lt
  | Gt => Gt
  | Eq => Pos.compare_cont Eq m1 m2
  end = (Zpos m1 * 2 ^ (e1 - emin) ?= Zpos m2 * 2 ^ (e2 - emin)).
Proof.
  intros H1 H2. destruct (Z.compare_spec e1 e2) as [E | L | G].
  - subst e2. apply mantissa_compare. apply Z.pow_pos_nonneg; [lia |].
    destruct (bounded_inv _ _ H1); lia.
  - symmetry. apply Z.compare_lt_iff. apply exponent_lt_ord; assumption.
  - symmetry. apply Z.compare_gt_iff. apply exponent_lt_ord; assumption.
Qed.

(** On the numbers of the format, [SFcompare] compares [ord]. *)
Lemma SFcompare_ord (x y : spec_float) :
  valid x = true -> valid y = true ->
  is_nan x = false -> is_nan y = false ->
  SFcompare x y = Some (ord x ?= ord y).
Proof.
  pose proof infinity_ord_pos as HP.
  destruct x as [sx | sx | | sx mx ex]; destruct y as [sy | sy | | sy my ey];
    cbn [valid_binary is_nan ord SFcompare]; intros Hx Hy Nx Ny;
    try discriminate; f_equal;
    try (pose proof (finite_ord_bounds _ _ Hx));
    try (pose proof (finite_ord_bounds _ _ Hy)).
  all: try (destruct sx); try (destruct sy); cbn [cond_Zopp];
    try (rewrite Z.compare_opp);
    try reflexivity;
    try (symmetry; apply Z.compare_eq_iff; lia);
    try (symmetry; apply Z.compare_lt_iff; lia);
    try (symmetry; apply Z.compare_gt_iff; lia).
  - etransitivity; [| apply (finite_compare _ _ _ _ Hy Hx)].
    rewrite (Z.compare_antisym ex ey).
    destruct (ex ?= ey); cbn [CompOpp]; try reflexivity.
    apply (Pos.compare_cont_antisym mx my Eq).
  - apply (finite_compare _ _ _ _ Hx Hy).
Qed.

(** *** Rounding a positive integer never gives zero *)

Lemma shr_1_lower (mrs : shr_record) (k : Z) :
  2 * k <= shr_m mrs -> k <= shr_m (shr_1 mrs).
Proof.
  destruct mrs as [m r s]. destruct m as [| [p | p |] | [p | p |]]; cbn [shr_1 shr_m]; lia.
Qed.

Lemma iter_shr_1_lower (p : positive) :
  forall (mrs : shr_record) (k : Z),
    2 ^ Zpos p * k <= shr_m mrs -> k <= shr_m (iter_pos shr_1 p mrs).
Proof.
  induction p as [p IH | p IH |]; intros mrs k H; cbn [iter_pos].
  - apply IH, IH, shr_1_lower.
    rewrite (Pos2Z.inj_xI p) in H.
    replace (2 * Zpos p + 1) with (Zpos p + Zpos p + 1) in H by lia.
    rewrite !Z.pow_add_r in H by lia. change (2 ^ 1) with 2 in H. lia.
  - apply IH, IH.
    rewrite (Pos2Z.inj_xO p) in H.
    replace (2 * Zpos p) with (Zpos p + Zpos p) in H by lia.
    rewrite Z.pow_add_r in H by lia. lia.
  - apply shr_1_lower. exact H.
Qed.

Lemma shr_fexp_pos (m e : Z) (l : location) :
  0 < m -> emin <= e ->
  0 < shr_m (fst (shr_fexp prec emax m e l)) /\
  emin <= snd (shr_fexp prec emax m e l).
Proof.
  intros Hm He. unfold shr_fexp, shr.
  assert (Hrec : shr_m (shr_record_of_loc m l) = m)
    by (destruct l as [| []]; reflexivity).
  destruct m as [| p | p]; try lia. cbn [Zdigits2].
  pose proof (digits2_pos_bounds p) as [Hlo _].
  destruct (fexp (Zpos (digits2_pos p) + e) - e) as [| n | n] eqn:En;
    cbn [fst snd]; try (rewrite Hrec; lia).
  split; [| lia].
  apply Z.lt_le_trans with 1; [lia |].
  apply iter_shr_1_lower. rewrite Hrec, Z.mul_1_r.
  apply Z.le_trans with (2 ^ (Zpos (digits2_pos p) - 1)); [| assumption].
  apply Z.pow_le_mono_r; [lia |]. unfold SpecFloat.fexp in En. lia.
Qed.

Lemma round_nearest_even_lower (m : Z) (l : location) :
  m <= round_nearest_even m l.
Proof.
  destruct l as [| []]; cbn [round_nearest_even]; try lia. destruct (Z.even m); lia.
Qed.

Lemma binary_round_aux_pos (mx ex : Z) (lx : location) :
  0 < mx -> emin <= ex ->
  is_positive (binary_round_aux prec emax false mx ex lx) = true.
Proof.
  intros Hm He. unfold binary_round_aux.
  destruct (shr_fexp_pos mx ex lx Hm He) as [H1 H1e].
  destruct (shr_fexp prec emax mx ex lx) as [mrs1 e1]. cbn [fst snd] in H1, H1e.
  pose proof (round_nearest_even_lower (shr_m mrs1) (loc_of_shr_record mrs1)) as Hr.
  destruct (shr_fexp_pos (round_nearest_even (shr_m mrs1) (loc_of_shr_record mrs1))
              e1 loc_Exact ltac:(lia) H1e) as [H2 _].
  destruct (shr_fexp prec emax _ e1 loc_Exact) as [mrs2 e2]. cbn [fst] in H2.
  destruct (shr_m mrs2) as [| q | q]; try lia.
  destruct (e2 <=? emax - prec); reflexivity.
Qed.

Lemma binary_round_pos (m : positive) (e : Z) :
  emin <= e -> is_positive (binary_round prec emax false m e) = true.
Proof.
  intros He. unfold binary_round, shl_align.
  destruct (fexp (Zpos (digits2_pos m) + e) - e) as [| d | d] eqn:Ed;
    apply binary_round_aux_pos; try lia.
  unfold SpecFloat.fexp. lia.
Qed.

(** *** Alignment and subtraction *)

Lemma iter_xO_value (d m : positive) :
  Zpos (Pos.iter xO m d) = Zpos m * 2 ^ Zpos d.
Proof.
  induction d as [| d IH] using Pos.peano_ind.
  - cbn [Pos.iter]. change (2 ^ 1) with 2. lia.
  - rewrite Pos.iter_succ, (Pos2Z.inj_xO (Pos.iter xO m d)), IH, Pos2Z.inj_succ.
    rewrite Z.pow_succ_r by lia. lia.
Qed.

Lemma shl_align_value (mx : positive) (ex ez : Z) :
  ez <= ex ->
  Zpos (fst (shl_align mx ex ez)) = Zpos mx * 2 ^ (ex - ez).
Proof.
  intros H. unfold shl_align.
  destruct (ez - ex) as [| d | d] eqn:Ed; cbn [fst]; try lia.
  - replace (ex - ez) with 0 by lia. lia.
  - replace (ex - ez) with (Zpos d) by lia. apply iter_xO_value.
Qed.

Lemma aligned_ord (s : bool) (m : positive) (e ez : Z) :
  emin <= ez <= e ->
  cond_Zopp s (Zpos (fst (shl_align m e ez))) * 2 ^ (ez - emin)
  = ord (S754_finite s m e).
Proof.
  intros H. rewrite shl_align_value by lia. cbn [ord].
  replace (e - emin) with ((e - ez) + (ez - emin)) by lia.
  rewrite Z.pow_add_r by lia. destruct s; cbn [cond_Zopp]; lia.
Qed.

(** [x - y] is positive whenever [y < x]: the difference of two
    distinct numbers of the format is at least the least positive
    number, so it is never rounded to zero. *)
Lemma SFsub_positive (x y : spec_float) :
  valid x = true -> valid y = true ->
  SFltb y x = true ->
  is_positive (SFsub prec emax x y) = true.
Proof.
  intros Hx Hy Hlt. unfold SFltb in Hlt.
  assert (Nx : is_nan x = false).
  { destruct x; try reflexivity. destruct y; discriminate. }
  assert (Ny : is_nan y = false).
  { destruct y; try reflexivity. discriminate. }
  rewrite (SFcompare_ord y x Hy Hx Ny Nx) in Hlt.
  assert (Hord : ord y < ord x).
  { destruct (ord y ?= ord x) eqn:E; try discriminate Hlt. exact E. }
  clear Hlt. pose proof infinity_ord_pos as HP.
  destruct x as [sx | sx | | sx mx ex]; destruct y as [sy | sy | | sy my ey];
    try discriminate; cbn [valid_binary] in Hx, Hy;
    try (pose proof (finite_ord_bounds _ _ Hx));
    try (pose proof (finite_ord_bounds _ _ Hy)).
  all: lazymatch goal with
       | |- context [SFsub _ _ (S754_finite _ _ _) (S754_finite _ _ _)] => idtac
       | _ => try (destruct sx); try (destruct sy); cbn [ord cond_Zopp] in Hord;
              try lia; reflexivity
       end.
  cbn [SFsub].
  destruct (bounded_inv _ _ Hx) as (Hex & _). destruct (bounded_inv _ _ Hy) as (Hey & _).
  set (ez := Z.min ex ey).
  assert (Hez : emin <= ez) by (unfold ez; lia).
  pose proof (aligned_ord sx mx ex ez ltac:(unfold ez; lia)) as Ax.
  pose proof (aligned_ord sy my ey ez ltac:(unfold ez; lia)) as Ay.
  set (a := cond_Zopp sx (Zpos (fst (shl_align mx ex ez)))) in *.
  set (b := cond_Zopp sy (Zpos (fst (shl_align my ey ez)))) in *.
  assert (Hq : 0 < 2 ^ (ez - emin)) by (apply Z.pow_pos_nonneg; lia).
  assert (Hab : 0 < a - b) by nia.
  destruct (a - b) as [| d | d]; try lia.
  cbn [binary_normalize]. apply binary_round_pos. exact Hez.
Qed.

(** *** The boolean comparisons *)

Lemma SFltb_ord (x y : spec_float) :
  valid x = true -> valid y = true ->
  SFltb x y = true -> ord x < ord y.
Proof.
  intros Hx Hy H. unfold SFltb in H.
  assert (Nx : is_nan x = false) by (destruct x; try reflexivity; discriminate).
  assert (Ny : is_nan y = false)
    by (destruct y; try reflexivity; destruct x; discriminate).
  rewrite (SFcompare_ord x y Hx Hy Nx Ny) in H.
  destruct (ord x ?= ord y) eqn:E; try discriminate H. exact E.
Qed.

Lemma SFleb_ord (x y : spec_float) :
  valid x = true -> valid y = true ->
  SFleb x y = true -> ord x <= ord y.
Proof.
  intros Hx Hy H. unfold SFleb in H.
  assert (Nx : is_nan x = false) by (destruct x; try reflexivity; discriminate).
  assert (Ny : is_nan y = false)
    by (destruct y; try reflexivity; destruct x; discriminate).
  rewrite (SFcompare_ord x y Hx Hy Nx Ny) in H.
  destruct (ord x ?= ord y) eqn:E; try discriminate H.
  - apply Z.compare_eq_iff in E. lia.
  - apply Z.lt_le_incl. exact E.
Qed.

End BinaryOrder.

(** ** The numbers of JavaScript *)

Lemma binary64_prec : (0 < Number.prec)%Z.
Proof. reflexivity. Qed.

Lemma binary64_emax : (Number.prec < Number.emax)%Z.
Proof. reflexivity. Qed.

(** [x > y] makes [x - y > 0]. *)
Lemma gt_sub_positive (x y : number) :
  Number.is_number x = true -> Number.is_number y = true ->
  Number.gt x y = true ->
  Number.gt (Number.sub x y) Number.zero = true.
Proof.
  intros Hx Hy H.
  pose proof (SFsub_positive Number.prec Number.emax binary64_prec binary64_emax
                x y Hx Hy H) as P.
  unfold Number.gt, Number.sub, Number.zero.
  destruct (SFsub Number.prec Number.emax x y) as [s | [|] | | [|] m e];
    try discriminate P; reflexivity.
Qed.

(** The two gaps exclude each other between candles whose low is not
    above their high. *)
Lemma gaps_exclusive (high1 low1 high3 low3 : number) :
  Number.is_number high1 = true -> Number.is_number low1 = true ->
  Number.is_number high3 = true -> Number.is_number low3 = true ->
  Number.le low1 high1 = true -> Number.le low3 high3 = true ->
  Number.gt low3 high1 = true -> Number.lt high3 low1 = true ->
  False.
Proof.
  intros Vh1 Vl1 Vh3 Vl3 L1 L3 G B.
  pose proof (SFleb_ord _ _ binary64_prec binary64_emax _ _ Vl1 Vh1 L1).
  pose proof (SFleb_ord _ _ binary64_prec binary64_emax _ _ Vl3 Vh3 L3).
  pose proof (SFltb_ord _ _ binary64_prec binary64_emax _ _ Vh1 Vl3 G).
  pose proof (SFltb_ord _ _ binary64_prec binary64_emax _ _ Vh3 Vl1 B).
  lia.
Qed.

(** * The loop computes the scan *)

Lemma loop_step (candlesticks : list Candlestick) (i : nat)
    (results : list FvgAnalysisResult) :
  loop candlesticks i results =
  if Z_le_dec (Z.of_nat i) (Z.of_nat (length candlesticks) - 3) then
    match loop_body candlesticks i results with
    | Throw e => Throw e
    | Normal results' => loop candlesticks (S i) results'
    end
  else Normal results.
Proof.
  simp loop.
  destruct (Z_le_dec (Z.of_nat i) (Z.of_nat (length candlesticks) - 3)); cbn.
  - destruct (loop_body candlesticks i results); reflexivity.
  - reflexivity.
Qed.

Lemma loop_body_window (candlesticks : list Candlestick) (i : nat)
    (results : list FvgAnalysisResult) (w : Window) :
  window_at candlesticks i = Some w ->
  loop_body candlesticks i results = Normal (results ++ window_events w).
Proof.
  unfold window_at, loop_body. intros H.
  destruct (nth_error candlesticks i) as [c1 |]; [| discriminate].
  destruct (nth_error candlesticks (i + 1)) as [c2 |]; [| discriminate].
  destruct (nth_error candlesticks (i + 2)) as [c3 |]; [| discriminate].
  injection H as <-. cbn [read_volume].
  unfold window_events, is_bullish, is_bearish, bullish_event, bearish_event, total_volume.
  destruct (Number.gt (low c3) (high c1)); destruct (Number.lt (high c3) (low c1));
    cbn [app]; rewrite <- ?app_assoc, ?app_nil_r; reflexivity.
Qed.

Lemma window_at_app (pre rest : list Candlestick) (c1 c2 c3 : Candlestick) :
  window_at (pre ++ c1 :: c2 :: c3 :: rest) (length pre) = Some (c1, c2, c3).
Proof.
  unfold window_at.
  rewrite !nth_error_app2 by lia.
  replace (length pre - length pre)%nat with 0%nat by lia.
  replace (length pre + 1 - length pre)%nat with 1%nat by lia.
  replace (length pre + 2 - length pre)%nat with 2%nat by lia.
  reflexivity.
Qed.

Lemma loop_scan (suffix : list Candlestick) :
  forall (pre : list Candlestick) (results : list FvgAnalysisResult),
    loop (pre ++ suffix) (length pre) results = Normal (results ++ scan suffix).
Proof.
  induction suffix as [| c1 suffix IH]; intros pre results; rewrite loop_step.
  - destruct (Z_le_dec _ _) as [L | _].
    + rewrite length_app in L. cbn [length] in L. lia.
    + cbn. rewrite app_nil_r. reflexivity.
  - destruct suffix as [| c2 [| c3 rest]].
    + destruct (Z_le_dec _ _) as [L | _].
      * rewrite length_app in L. cbn [length] in L. lia.
      * cbn. rewrite app_nil_r. reflexivity.
    + destruct (Z_le_dec _ _) as [L | _].
      * rewrite length_app in L. cbn [length] in L. lia.
      * cbn. rewrite app_nil_r. reflexivity.
    + destruct (Z_le_dec _ _) as [_ | G].
      * rewrite (loop_body_window _ _ _ _ (window_at_app pre rest c1 c2 c3)).
        replace (pre ++ c1 :: c2 :: c3 :: rest) with ((pre ++ [c1]) ++ c2 :: c3 :: rest)
          by (rewrite <- app_assoc; reflexivity).
        replace (S (length pre)) with (length (pre ++ [c1]))
          by (rewrite length_app; cbn [length]; lia).
        rewrite IH, <- app_assoc. reflexivity.
      * rewrite length_app in G. cbn [length] in G. lia.
Qed.

Lemma scan_short (candlesticks : list Candlestick) :
  (length candlesticks < 3)%nat -> scan candlesticks = [].
Proof.
  destruct candlesticks as [| c1 [| c2 [| c3 rest]]]; cbn [length]; intros H;
    try reflexivity. lia.
Qed.

(** The action never reaches its [catch] handler: it returns a success
    state holding the scan and leaves the console as it was. *)
Lemma fvgAnalysisAction_scan (candlesticks : list Candlestick) (console : Console) :
  fvgAnalysisAction candlesticks console =
  (mkActionState true (success_message candlesticks) (Some (scan candlesticks)), console).
Proof.
  unfold fvgAnalysisAction, try_block, success_message.
  destruct (length candlesticks <? 3)%nat eqn:E.
  - apply Nat.ltb_lt in E. rewrite (scan_short _ E). reflexivity.
  - pose proof (loop_scan candlesticks [] []) as H. cbn [app length] in H.
    rewrite H. reflexivity.
Qed.

(** * Windows and indices *)

Lemma window_at_bound (candlesticks : list Candlestick) (i : nat) (w : Window) :
  window_at candlesticks i = Some w -> (i + 3 <= length candlesticks)%nat.
Proof.
  unfold window_at. intros H.
  destruct (nth_error candlesticks (i + 2)) as [c3 |] eqn:E3.
  - assert (i + 2 < length candlesticks)%nat
      by (apply nth_error_Some; rewrite E3; discriminate).
    lia.
  - destruct (nth_error candlesticks i); [| discriminate].
    destruct (nth_error candlesticks (i + 1)); discriminate.
Qed.

Lemma window_at_short (candlesticks : list Candlestick) (i : nat) :
  (length candlesticks < i + 3)%nat -> window_at candlesticks i = None.
Proof.
  intros H. destruct (window_at candlesticks i) as [w |] eqn:E; [| reflexivity].
  apply window_at_bound in E. lia.
Qed.

Lemma window_at_cons (c : Candlestick) (candlesticks : list Candlestick) (i : nat) :
  window_at (c :: candlesticks) (S i) = window_at candlesticks i.
Proof. reflexivity. Qed.

(** The [i]-th window is the one that starts at index [i]. *)
Lemma nth_error_windows (candlesticks : list Candlestick) :
  forall i : nat, nth_error (windows candlesticks) i = window_at candlesticks i.
Proof.
  induction candlesticks as [| c1 rest IH]; intros i.
  - rewrite window_at_short by (cbn; lia). destruct i; reflexivity.
  - destruct rest as [| c2 [| c3 rest]].
    + rewrite window_at_short by (cbn; lia). destruct i; reflexivity.
    + rewrite window_at_short by (cbn; lia). destruct i; reflexivity.
    + destruct i as [| i].
      * reflexivity.
      * rewrite window_at_cons, <- IH. reflexivity.
Qed.

Lemma length_windows (candlesticks : list Candlestick) :
  length (windows candlesticks) = (length candlesticks - 2)%nat.
Proof.
  induction candlesticks as [| c1 rest IH]; [reflexivity |].
  destruct rest as [| c2 [| c3 rest]]; try reflexivity.
  change (windows (c1 :: c2 :: c3 :: rest))
    with ((c1, c2, c3) :: windows (c2 :: c3 :: rest)).
  cbn [length] in *. lia.
Qed.

Lemma windows_firstn (n : nat) :
  forall candlesticks : list Candlestick,
    windows (firstn (n + 2) candlesticks) = firstn n (windows candlesticks).
Proof.
  replace (n + 2)%nat with (S (S n)) by lia.
  induction n as [| n IH]; intros candlesticks.
  - destruct candlesticks as [| c1 [| c2 rest]]; reflexivity.
  - destruct candlesticks as [| c1 [| c2 [| c3 rest]]]; try reflexivity.
    change (windows (c1 :: c2 :: c3 :: rest))
      with ((c1, c2, c3) :: windows (c2 :: c3 :: rest)).
    cbn [firstn]. rewrite <- IH. reflexivity.
Qed.

Lemma windows_skipn (n : nat) :
  forall candlesticks : list Candlestick,
    windows (skipn n candlesticks) = skipn n (windows candlesticks).
Proof.
  induction n as [| n IH]; intros candlesticks; [reflexivity |].
  destruct candlesticks as [| c1 rest]; [reflexivity |].
  cbn [skipn]. rewrite IH.
  destruct rest as [| c2 [| c3 rest]]; try (rewrite skipn_nil; reflexivity).
  reflexivity.
Qed.

(** The scan around the window that starts at [i]. *)
Lemma scan_split (candlesticks : list Candlestick) (i : nat) (w : Window) :
  window_at candlesticks i = Some w ->
  scan candlesticks =
  scan (firstn (i + 2) candlesticks) ++ window_events w ++
  scan (skipn (i + 1) candlesticks).
Proof.
  intros H. rewrite <- nth_error_windows in H.
  unfold scan. rewrite windows_firstn, windows_skipn.
  destruct (nth_error_split _ _ H) as (l1 & l2 & E & L).
  rewrite E, <- L.
  rewrite firstn_app, Nat.sub_diag, firstn_all, firstn_O, app_nil_r.
  rewrite skipn_app, skipn_all2 by lia.
  replace (length l1 + 1 - length l1)%nat with 1%nat by lia.
  cbn [skipn app]. rewrite flat_map_app. reflexivity.
Qed.

Lemma windows_In (candlesticks : list Candlestick) (c1 c2 c3 : Candlestick) :
  In (c1, c2, c3) (windows candlesticks) ->
  In c1 candlesticks /\ In c2 candlesticks /\ In c3 candlesticks.
Proof.
  intros H. apply In_nth_error in H. destruct H as [i H].
  rewrite nth_error_windows in H. unfold window_at in H.
  destruct (nth_error candlesticks i) as [a |] eqn:E1; [| discriminate].
  destruct (nth_error candlesticks (i + 1)) as [b |] eqn:E2; [| discriminate].
  destruct (nth_error candlesticks (i + 2)) as [c |] eqn:E3; [| discriminate].
  injection H as -> -> ->.
  repeat split; eapply nth_error_In; eassumption.
Qed.

Lemma length_window_events (w : Window) :
  length (window_events w) =
  ((if is_bullish w then 1 else 0) + (if is_bearish w then 1 else 0))%nat.
Proof.
  unfold window_events. destruct (is_bullish w); destruct (is_bearish w); reflexivity.
Qed.

Lemma length_flat_map_window_events (ws : list Window) :
  length (flat_map window_events ws) =
  (length (filter is_bullish ws) + length (filter is_bearish ws))%nat.
Proof.
  induction ws as [| w ws IH]; [reflexivity |].
  cbn [flat_map filter]. rewrite length_app, length_window_events, IH.
  destruct (is_bullish w); destruct (is_bearish w); cbn [length]; lia.
Qed.

Lemma filter_both_either (ws : list Window) :
  (length (filter is_bullish ws) + length (filter is_bearish ws))%nat =
  (length (filter qualifies ws) + length (filter qualifies_twice ws))%nat.
Proof.
  induction ws as [| w ws IH]; [reflexivity |].
  cbn [filter]. unfold qualifies at 1, qualifies_twice at 1.
  destruct (is_bullish w); destruct (is_bearish w); cbn [orb andb length]; lia.
Qed.

(** * The test suite *)

Example test_insufficient_data :
  outcome [] [] =
  mkActionState true "Not enough data to perform FVG analysis." (Some []).
Proof. reflexivity. Qed.

Example test_bullish_pattern :
  data (outcome test_bullish []) =
  Some [Fvg.mk bullish (Number.of_Z 1000) (Number.of_Z 3000)
          (Number.of_Z (110 - 100)) (Number.of_Z (100 + 150 + 200))].
Proof. vm_compute. reflexivity. Qed.

Example test_bearish_pattern :
  data (outcome test_bearish []) =
  Some [Fvg.mk bearish (Number.of_Z 1000) (Number.of_Z 3000)
          (Number.of_Z (110 - 105)) (Number.of_Z (200 + 180 + 160))].
Proof. vm_compute. reflexivity. Qed.

(** On the six candles of the last test the window at index 2 passes
    the bearish test as well (its third candle's high, 109, is below its
    first candle's low, 111), so the action reports three events where
    the test lists the first and the last. *)
Example test_multiple_patterns :
  data (outcome test_multiple []) =
  Some [Fvg.mk bullish (Number.of_Z 1000) (Number.of_Z 3000)
          (Number.of_Z 1) (Number.of_Z 450);
        Fvg.mk bearish (Number.of_Z 3000) (Number.of_Z 5000)
          (Number.of_Z 2) (Number.of_Z 450);
        Fvg.mk bearish (Number.of_Z 4000) (Number.of_Z 6000)
          (Number.of_Z 2) (Number.of_Z 390)].
Proof. vm_compute. reflexivity. Qed.

(** * The properties of the specification *)

Lemma outcome_scan (candlesticks : list Candlestick) (console : Console) :
  outcome candlesticks console =
  mkActionState true (success_message candlesticks) (Some (scan candlesticks)).
Proof. unfold outcome. rewrite fvgAnalysisAction_scan. reflexivity. Qed.

Lemma window_at_nth (candlesticks : list Candlestick) (i : nat)
    (candle1 candle2 candle3 : Candlestick) :
  nth_error candlesticks i = Some candle1 ->
  nth_error candlesticks (i + 1) = Some candle2 ->
  nth_error candlesticks (i + 2) = Some candle3 ->
  window_at candlesticks i = Some (candle1, candle2, candle3).
Proof. unfold window_at. intros -> -> ->. reflexivity. Qed.

(** C1. For the candles at [i], [i + 1] and [i + 2] of any input, if
    [candle3.low > candle1.high] then the result holds, right after the
    events of the windows that start before [i] (the events the action
    reports for the first [i + 2] candles), a bullish event with
    [startTime = candle1.time], [endTime = candle3.time],
    [gapSize = candle3.low - candle1.high] and
    [volume = candle1.volume + candle2.volume + candle3.volume]. *)
Theorem C1_bullish_event (candlesticks : list Candlestick) (console : Console)
    (i : nat) (candle1 candle2 candle3 : Candlestick) :
  nth_error candlesticks i = Some candle1 ->
  nth_error candlesticks (i + 1) = Some candle2 ->
  nth_error candlesticks (i + 2) = Some candle3 ->
  Number.gt (low candle3) (high candle1) = true ->
  exists before after : list FvgAnalysisResult,
    data (outcome (firstn (i + 2) candlesticks) console) = Some before /\
    data (outcome candlesticks console) =
    Some (before ++
          Fvg.mk bullish (time candle1) (time candle3)
            (Number.sub (low candle3) (high candle1))
            (Number.add (Number.add (volume candle1) (volume candle2))
               (volume candle3))
          :: after).
Proof.
  intros H1 H2 H3 G.
  pose proof (scan_split _ _ _ (window_at_nth _ _ _ _ _ H1 H2 H3)) as S.
  unfold window_events in S. cbn [is_bullish] in S. rewrite G in S.
  rewrite !outcome_scan. cbn [data].
  eexists. eexists. split; [reflexivity |].
  rewrite S. cbn [bullish_event total_volume app]. reflexivity.
Qed.

Lemma C1_bullish_event_witness :
  (nth_error test_bullish 0 = Some bull1 /\
   nth_error test_bullish (0 + 1) = Some bull2 /\
   nth_error test_bullish (0 + 2) = Some bull3 /\
   Number.gt (low bull3) (high bull1) = true) /\
  exists before after : list FvgAnalysisResult,
    data (outcome (firstn (0 + 2) test_bullish) []) = Some before /\
    data (outcome test_bullish []) =
    Some (before ++
          Fvg.mk bullish (time bull1) (time bull3)
            (Number.sub (low bull3) (high bull1))
            (Number.add (Number.add (volume bull1) (volume bull2)) (volume bull3))
          :: after).
Proof.
  split.
  - repeat split; reflexivity.
  - apply (C1_bullish_event test_bullish [] 0 bull1 bull2 bull3); reflexivity.
Defined.

(** C2. For the candles at [i], [i + 1] and [i + 2] of any input, if
    [candle3.high < candle1.low] then the result holds, after the events
    of the windows that start before [i] and the bullish event of this
    window if it has one, a bearish event with
    [startTime = candle1.time], [endTime = candle3.time],
    [gapSize = candle1.low - candle3.high] and
    [volume = candle1.volume + candle2.volume + candle3.volume]. *)
Theorem C2_bearish_event (candlesticks : list Candlestick) (console : Console)
    (i : nat) (candle1 candle2 candle3 : Candlestick) :
  nth_error candlesticks i = Some candle1 ->
  nth_error candlesticks (i + 1) = Some candle2 ->
  nth_error candlesticks (i + 2) = Some candle3 ->
  Number.lt (high candle3) (low candle1) = true ->
  exists before after : list FvgAnalysisResult,
    data (outcome (firstn (i + 2) candlesticks) console) = Some before /\
    data (outcome candlesticks console) =
    Some (before ++
          (if Number.gt (low candle3) (high candle1)
           then [bullish_event (candle1, candle2, candle3)] else []) ++
          Fvg.mk bearish (time candle1) (time candle3)
            (Number.sub (low candle1) (high candle3))
            (Number.add (Number.add (volume candle1) (volume candle2))
               (volume candle3))
          :: after).
Proof.
  intros H1 H2 H3 B.
  pose proof (scan_split _ _ _ (window_at_nth _ _ _ _ _ H1 H2 H3)) as S.
  unfold window_events in S. cbn [is_bullish is_bearish] in S. rewrite B in S.
  rewrite !outcome_scan. cbn [data].
  eexists. eexists. split; [reflexivity |].
  rewrite S, <- !app_assoc. reflexivity.
Qed.

Lemma C2_bearish_event_witness :
  (nth_error test_bearish 0 = Some bear1 /\
   nth_error test_bearish (0 + 1) = Some bear2 /\
   nth_error test_bearish (0 + 2) = Some bear3 /\
   Number.lt (high bear3) (low bear1) = true) /\
  exists before after : list FvgAnalysisResult,
    data (outcome (firstn (0 + 2) test_bearish) []) = Some before /\
    data (outcome test_bearish []) =
    Some (before ++
          (if Number.gt (low bear3) (high bear1)
           then [bullish_event (bear1, bear2, bear3)] else []) ++
          Fvg.mk bearish (time bear1) (time bear3)
            (Number.sub (low bear1) (high bear3))
            (Number.add (Number.add (volume bear1) (volume bear2)) (volume bear3))
          :: after).
Proof.
  split.
  - repeat split; reflexivity.
  - apply (C2_bearish_event test_bearish [] 0 bear1 bear2 bear3); reflexivity.
Defined.

(** C3, as stated, fails on a window that passes both tests: the three
    candles of [degenerate] form one qualifying window and the action
    reports two events. *)
Lemma C3_counterexample :
  length (windows degenerate) = 1%nat /\
  count_windows qualifies degenerate = 1%nat /\
  option_map (@length FvgAnalysisResult) (data (outcome degenerate [])) = Some 2%nat.
Proof. vm_compute. repeat split. Qed.

(** C3, amended. The result is a success state whose events are those
    of the [length - 2] windows in ascending order of start index; a
    window that passes neither test contributes none; and the number of
    events is the number of windows that pass the bullish test plus the
    number that pass the bearish test, that is the number of qualifying
    windows plus the number of windows that pass both tests. *)
Theorem C3_events_by_window (candlesticks : list Candlestick) (console : Console) :
  data (outcome candlesticks console) =
    Some (flat_map window_events (windows candlesticks)) /\
  length (windows candlesticks) = (length candlesticks - 2)%nat /\
  (forall i : nat, nth_error (windows candlesticks) i = window_at candlesticks i) /\
  (forall w : Window,
     is_bullish w = false -> is_bearish w = false -> window_events w = []) /\
  option_map (@length FvgAnalysisResult) (data (outcome candlesticks console)) =
    Some (count_windows is_bullish candlesticks +
          count_windows is_bearish candlesticks)%nat /\
  option_map (@length FvgAnalysisResult) (data (outcome candlesticks console)) =
    Some (count_windows qualifies candlesticks +
          count_windows qualifies_twice candlesticks)%nat.
Proof.
  rewrite outcome_scan. cbn [data option_map]. unfold scan, count_windows.
  split; [reflexivity |].
  split; [apply length_windows |].
  split; [apply nth_error_windows |].
  split.
  - intros w Hb Hs. unfold window_events. rewrite Hb, Hs. reflexivity.
  - rewrite <- filter_both_either, length_flat_map_window_events. split; reflexivity.
Qed.

(** C4. On fewer than three candles, the empty array included, the
    action returns a success state whose data is the empty sequence,
    and it logs nothing. *)
Theorem C4_insufficient_data (candlesticks : list Candlestick) (console : Console) :
  (length candlesticks < 3)%nat ->
  fvgAnalysisAction candlesticks console =
  (mkActionState true "Not enough data to perform FVG analysis." (Some []), console) /\
  isSuccess (outcome candlesticks console) = true /\
  data (outcome candlesticks console) = Some [].
Proof.
  intros H. unfold outcome, fvgAnalysisAction, try_block.
  apply Nat.ltb_lt in H. rewrite H. repeat split.
Qed.

Lemma C4_insufficient_data_witness :
  (length [bull1; bull2] < 3)%nat /\
  fvgAnalysisAction [bull1; bull2] [] =
  (mkActionState true "Not enough data to perform FVG analysis." (Some []), []) /\
  isSuccess (outcome [bull1; bull2] []) = true /\
  data (outcome [bull1; bull2] []) = Some [].
Proof.
  split.
  - apply Nat.ltb_lt. reflexivity.
  - apply (C4_insufficient_data [bull1; bull2] []). apply Nat.ltb_lt. reflexivity.
Defined.

(** C5. Both tests run on every window.  Between numbers, when
    [candle1.low <= candle1.high] and [candle3.low <= candle3.high] the
    two tests cannot both pass, so the loop body appends at most one
    event for the window; whenever both tests pass, the body appends
    both events; and the malformed window of [degenerate] (its first
    candle has [low > high]) passes both, so the action reports a
    bullish and a bearish event for this one window. *)
Theorem C5_tests_independent (candlesticks : list Candlestick) (i : nat)
    (candle1 candle2 candle3 : Candlestick) (results : list FvgAnalysisResult) :
  window_at candlesticks i = Some (candle1, candle2, candle3) ->
  is_candle candle1 = true -> is_candle candle3 = true ->
  Number.le (low candle1) (high candle1) = true ->
  Number.le (low candle3) (high candle3) = true ->
  (Number.gt (low candle3) (high candle1) &&
   Number.lt (high candle3) (low candle1) = false /\
   exists events : list FvgAnalysisResult,
     loop_body candlesticks i results = Normal (results ++ events) /\
     (length events <= 1)%nat) /\
  (forall (cs : list Candlestick) (j : nat) (w : Window) (rs : list FvgAnalysisResult),
     window_at cs j = Some w -> is_bullish w = true -> is_bearish w = true ->
     loop_body cs j rs = Normal (rs ++ [bullish_event w; bearish_event w])) /\
  (window_at degenerate 0 = Some (odd1, odd2, odd3) /\
   Number.gt (low odd1) (high odd1) = true /\
   Number.gt (low odd3) (high odd1) = true /\
   Number.lt (high odd3) (low odd1) = true /\
   data (outcome degenerate []) =
   Some [bullish_event (odd1, odd2, odd3); bearish_event (odd1, odd2, odd3)]).
Proof.
  intros W V1 V3 L1 L3.
  assert (X : Number.gt (low candle3) (high candle1) &&
              Number.lt (high candle3) (low candle1) = false).
  { destruct (Number.gt (low candle3) (high candle1)) eqn:G;
      destruct (Number.lt (high candle3) (low candle1)) eqn:B; try reflexivity.
    exfalso. unfold is_candle in V1, V3.
    repeat (match goal with
            | H : _ && _ = true |- _ => apply andb_true_iff in H; destruct H
            end).
    eapply (gaps_exclusive (high candle1) (low candle1) (high candle3) (low candle3));
      eassumption. }
  split; [split; [exact X |] | split].
  - exists (window_events (candle1, candle2, candle3)).
    split; [apply loop_body_window; exact W |].
    rewrite length_window_events. cbn [is_bullish is_bearish].
    destruct (Number.gt (low candle3) (high candle1));
      destruct (Number.lt (high candle3) (low candle1));
      try discriminate X; cbn; lia.
  - intros cs j w rs Hw Hb Hs. rewrite (loop_body_window _ _ _ _ Hw).
    unfold window_events. rewrite Hb, Hs. reflexivity.
  - vm_compute. repeat split.
Qed.

Lemma C5_tests_independent_witness :
  (window_at test_bearish 0 = Some (bear1, bear2, bear3) /\
   is_candle bear1 = true /\ is_candle bear3 = true /\
   Number.le (low bear1) (high bear1) = true /\
   Number.le (low bear3) (high bear3) = true) /\
  Number.gt (low bear3) (high bear1) && Number.lt (high bear3) (low bear1) = false /\
  exists events : list FvgAnalysisResult,
    loop_body test_bearish 0 [] = Normal ([] ++ events) /\ (length events <= 1)%nat.
Proof.
  split.
  - repeat split; reflexivity.
  - exact (proj1 (C5_tests_independent test_bearish 0 bear1 bear2 bear3 []
                    eq_refl eq_refl eq_refl eq_refl eq_refl)).
Defined.

(** The events of a window read the high, low and time of its first and
    third candle, and the volume of all three. *)
Lemma window_events_agree (c1 c2 c3 c1' c2' c3' : Candlestick) :
  volume c1 = volume c1' -> volume c2 = volume c2' -> volume c3 = volume c3' ->
  time c1 = time c1' -> time c3 = time c3' ->
  high c1 = high c1' -> low c1 = low c1' ->
  high c3 = high c3' -> low c3 = low c3' ->
  window_events (c1, c2, c3) = window_events (c1', c2', c3').
Proof.
  intros V1 V2 V3 T1 T3 H1 L1 H3 L3.
  unfold window_events, is_bullish, is_bearish, bullish_event, bearish_event,
    total_volume.
  rewrite V1, V2, V3, T1, T3, H1, L1, H3, L3. reflexivity.
Qed.

Lemma nth_error_defined (candlesticks : list Candlestick) (j : nat) :
  (j < length candlesticks)%nat -> exists c, nth_error candlesticks j = Some c.
Proof.
  intros H. destruct (nth_error candlesticks j) as [c |] eqn:E.
  - exists c. reflexivity.
  - apply nth_error_None in E. lia.
Qed.

Lemma scan_agree (candlesticks candlesticks' : list Candlestick) :
  length candlesticks = length candlesticks' ->
  (forall (j : nat) (c c' : Candlestick),
     nth_error candlesticks j = Some c -> nth_error candlesticks' j = Some c' ->
     agree (length candlesticks) j c c') ->
  scan candlesticks = scan candlesticks'.
Proof.
  intros Hlen Hag. unfold scan. rewrite !flat_map_concat_map. f_equal.
  apply nth_error_ext. intros n. rewrite !nth_error_map, !nth_error_windows.
  destruct (le_lt_dec (n + 3) (length candlesticks)) as [Hn | Hn].
  - destruct (nth_error_defined candlesticks n ltac:(lia)) as [c1 E1].
    destruct (nth_error_defined candlesticks (n + 1) ltac:(lia)) as [c2 E2].
    destruct (nth_error_defined candlesticks (n + 2) ltac:(lia)) as [c3 E3].
    destruct (nth_error_defined candlesticks' n ltac:(lia)) as [c1' E1'].
    destruct (nth_error_defined candlesticks' (n + 1) ltac:(lia)) as [c2' E2'].
    destruct (nth_error_defined candlesticks' (n + 2) ltac:(lia)) as [c3' E3'].
    destruct (Hag _ _ _ E1 E1') as (V1 & T1 & P1).
    destruct (Hag _ _ _ E2 E2') as (V2 & _ & _).
    destruct (Hag _ _ _ E3 E3') as (V3 & T3 & P3).
    destruct P1 as [H1 L1].
    { unfold first_or_third. apply orb_true_iff. left. apply Nat.leb_le. exact Hn. }
    destruct P3 as [H3 L3].
    { unfold first_or_third. apply orb_true_iff. right. apply Nat.leb_le. lia. }
    unfold window_at. rewrite E1, E2, E3, E1', E2', E3'. cbn [option_map].
    f_equal. apply window_events_agree; assumption.
  - rewrite !window_at_short by lia. reflexivity.
Qed.

(** C6, as stated, fails where windows overlap: [overlapping] and
    [overlapping'] have the same length, volumes and times and differ in
    the high of their second candle alone, which is the middle candle of
    the window at 0; it is also the first candle of the window at 1, and
    the outputs differ. *)
Lemma C6_counterexample :
  length overlapping = length overlapping' /\
  map volume overlapping = map volume overlapping' /\
  map time overlapping = map time overlapping' /\
  map open overlapping = map open overlapping' /\
  map close overlapping = map close overlapping' /\
  map low overlapping = map low overlapping' /\
  window_at overlapping 0 = Some (quad1, quad2, quad3) /\
  window_at overlapping' 0 = Some (quad1, quad2', quad3) /\
  data (outcome overlapping []) = Some [bullish_event (quad2, quad3, quad4)] /\
  data (outcome overlapping' []) = Some [].
Proof. vm_compute. repeat split. Qed.

(** C6, amended. Two inputs of equal length that agree on the volume and
    the time of every candle, and on the high and the low of every
    candle that is the first or the third candle of a window, give
    identical outputs: open and close are never read, and the high and
    low of a candle are unused where it is a middle candle only.  Within
    a window, the middle candle contributes its volume and nothing
    else. *)
Theorem C6_middle_prices_unused (candlesticks candlesticks' : list Candlestick)
    (console : Console) :
  length candlesticks = length candlesticks' ->
  (forall (j : nat) (c c' : Candlestick),
     nth_error candlesticks j = Some c -> nth_error candlesticks' j = Some c' ->
     agree (length candlesticks) j c c') ->
  fvgAnalysisAction candlesticks console = fvgAnalysisAction candlesticks' console /\
  (forall (candle1 candle2 candle2' candle3 : Candlestick) (i : nat)
          (cs cs' : list Candlestick) (results : list FvgAnalysisResult),
     window_at cs i = Some (candle1, candle2, candle3) ->
     window_at cs' i = Some (candle1, candle2', candle3) ->
     volume candle2 = volume candle2' ->
     loop_body cs i results = loop_body cs' i results).
Proof.
  intros Hlen Hag. split.
  - rewrite !fvgAnalysisAction_scan. unfold success_message.
    rewrite (scan_agree _ _ Hlen Hag), Hlen. reflexivity.
  - intros c1 c2 c2' c3 i cs cs' results W W' V.
    rewrite (loop_body_window _ _ _ _ W), (loop_body_window _ _ _ _ W').
    f_equal. f_equal. apply window_events_agree; try reflexivity. exact V.
Qed.

Lemma test_bullish_agree :
  forall (j : nat) (c c' : Candlestick),
    nth_error test_bullish j = Some c -> nth_error test_bullish' j = Some c' ->
    agree (length test_bullish) j c c'.
Proof.
  intros j c c' H H'.
  destruct j as [| [| [| j]]]; cbn in H, H'.
  - injection H as <-. injection H' as <-. repeat split.
  - injection H as <-. injection H' as <-. repeat split; discriminate.
  - injection H as <-. injection H' as <-. repeat split.
  - destruct j; discriminate.
Qed.

Lemma C6_middle_prices_unused_witness :
  length test_bullish = length test_bullish' /\
  nth_error test_bullish 1 <> nth_error test_bullish' 1 /\
  fvgAnalysisAction test_bullish [] = fvgAnalysisAction test_bullish' [].
Proof.
  split; [reflexivity |]. split; [discriminate |].
  exact (proj1 (C6_middle_prices_unused test_bullish test_bullish' []
                  eq_refl test_bullish_agree)).
Defined.

(** C7. On every array of candles, malformed ones included, the [try]
    block completes without throwing, the action returns a success
    state that holds the events, and the [catch] handler, which would
    log to the console, is not reached. *)
Theorem C7_never_fails (candlesticks : list Candlestick) (console : Console) :
  (exists state : ActionState (list FvgAnalysisResult),
     try_block candlesticks = Normal state /\ isSuccess state = true) /\
  (forall e : JsError, try_block candlesticks <> Throw e) /\
  isSuccess (outcome candlesticks console) = true /\
  data (outcome candlesticks console) <> None /\
  snd (fvgAnalysisAction candlesticks console) = console.
Proof.
  pose proof (fvgAnalysisAction_scan candlesticks console) as H.
  unfold outcome. rewrite H. cbn [fst snd isSuccess data].
  unfold fvgAnalysisAction in H.
  destruct (try_block candlesticks) as [state | e].
  - injection H as ->. repeat split; try discriminate.
    eexists. split; reflexivity.
  - discriminate H.
Qed.

(** ** The action on the heap *)

Lemma loop_heap_step (candlesticks results : Ref) (i : nat) (h : Heap) :
  loop_heap candlesticks results i h =
  if Z_le_dec (Z.of_nat i) (Z.of_nat (candles_length h candlesticks) - 3) then
    match loop_body_heap candlesticks results i h with
    | None => None
    | Some (Throw e, h') => Some (Throw e, h')
    | Some (Normal _, h') => loop_heap candlesticks results (S i) h'
    end
  else Some (Normal tt, h).
Proof.
  simp loop_heap.
  destruct (Z_le_dec (Z.of_nat i) (Z.of_nat (candles_length h candlesticks) - 3));
    [| reflexivity].
  unfold loop_heap_unfold_clause_1.
  destruct (inspect (loop_body_heap candlesticks results i h)) as [o E].
  destruct o as [[[u | e] h'] |]; unfold loop_heap_unfold_clause_1_clause_2;
    rewrite E; reflexivity.
Qed.

Lemma set_nth_twice (h : Heap) :
  forall (r : Ref) (o o' : Obj), set_nth r o (set_nth r o' h) = set_nth r o h.
Proof.
  induction h as [| x h IH]; intros r o o'; [destruct r; reflexivity |].
  destruct r as [| r]; cbn [set_nth]; [reflexivity |]. rewrite IH. reflexivity.
Qed.

Lemma set_nth_same (h : Heap) :
  forall (r : Ref) (o : Obj), nth_error h r = Some o -> set_nth r o h = h.
Proof.
  induction h as [| x h IH]; intros r o H; [destruct r; reflexivity |].
  destruct r as [| r]; cbn [set_nth nth_error] in *.
  - injection H as ->. reflexivity.
  - rewrite (IH r o H). reflexivity.
Qed.

Lemma set_nth_last (h : Heap) (o o' : Obj) :
  set_nth (length h) o (h ++ [o']) = h ++ [o].
Proof.
  induction h as [| x h IH]; [reflexivity |].
  cbn [length app set_nth]. rewrite IH. reflexivity.
Qed.

Lemma results_at_set_nth (h : Heap) (r : Ref) (old items : list FvgAnalysisResult) :
  results_at h r = Some old ->
  results_at (set_nth r (ResultArray items) h) r = Some items.
Proof.
  unfold results_at. rewrite nth_error_set_nth, Nat.eqb_refl.
  destruct (nth_error h r) as [[cs | evs] |]; try discriminate. reflexivity.
Qed.

Lemma candles_at_set_nth (h : Heap) (r c : Ref) (old items : list FvgAnalysisResult) :
  results_at h r = Some old ->
  candles_at (set_nth r (ResultArray items) h) c = candles_at h c.
Proof.
  unfold results_at, candles_at. rewrite nth_error_set_nth.
  destruct (Nat.eqb_spec r c) as [-> | N]; [| reflexivity].
  destruct (nth_error h c) as [[cs | evs] |]; try discriminate; reflexivity.
Qed.

Lemma push_results (h : Heap) (r : Ref) (items : list FvgAnalysisResult)
    (event : FvgAnalysisResult) :
  results_at h r = Some items ->
  push r event h = Some (set_nth r (ResultArray (items ++ [event])) h).
Proof. unfold push. intros ->. reflexivity. Qed.

Lemma loop_body_heap_window (candlesticks results : Ref) (i : nat) (h : Heap)
    (items : list Candlestick) (acc : list FvgAnalysisResult) (w : Window) :
  candles_at h candlesticks = Some items ->
  results_at h results = Some acc ->
  window_at items i = Some w ->
  loop_body_heap candlesticks results i h =
  Some (Normal tt, set_nth results (ResultArray (acc ++ window_events w)) h).
Proof.
  intros Hc Hr W. unfold loop_body_heap. rewrite Hc. unfold window_at in W.
  destruct (nth_error items i) as [c1 |]; [| discriminate].
  destruct (nth_error items (i + 1)) as [c2 |]; [| discriminate].
  destruct (nth_error items (i + 2)) as [c3 |]; [| discriminate].
  injection W as <-. cbn [read_volume].
  unfold window_events, is_bullish, is_bearish, bullish_event, bearish_event,
    total_volume, push_if.
  destruct (Number.gt (low c3) (high c1)); destruct (Number.lt (high c3) (low c1)).
  - rewrite (push_results _ _ _ _ Hr).
    rewrite (push_results _ _ _ _ (results_at_set_nth _ _ _ _ Hr)).
    rewrite set_nth_twice, <- app_assoc. reflexivity.
  - rewrite (push_results _ _ _ _ Hr). rewrite app_nil_r. reflexivity.
  - rewrite (push_results _ _ _ _ Hr). reflexivity.
  - cbn [app]. rewrite app_nil_r.
    rewrite set_nth_same; [reflexivity |].
    unfold results_at in Hr.
    destruct (nth_error h results) as [[cs | evs] |]; try discriminate Hr.
    injection Hr as ->. reflexivity.
Qed.

Lemma skipn_nth_cons {A : Type} (l : list A) :
  forall (n : nat) (x : A), nth_error l n = Some x -> skipn n l = x :: skipn (S n) l.
Proof.
  induction l as [| a l IH]; intros n x H; [destruct n; discriminate H |].
  destruct n as [| n].
  - injection H as ->. reflexivity.
  - cbn [nth_error] in H. exact (IH n x H).
Qed.

Lemma scan_skipn_window (items : list Candlestick) (i : nat) (w : Window) :
  window_at items i = Some w ->
  scan (skipn i items) = window_events w ++ scan (skipn (S i) items).
Proof.
  intros W. rewrite <- nth_error_windows in W. unfold scan.
  rewrite !windows_skipn, (skipn_nth_cons _ _ _ W). reflexivity.
Qed.

Lemma loop_heap_scan (candlesticks results : Ref) (items : list Candlestick) (n : nat) :
  forall (i : nat) (h : Heap) (acc : list FvgAnalysisResult),
    length items - i = n ->
    candles_at h candlesticks = Some items ->
    results_at h results = Some acc ->
    loop_heap candlesticks results i h =
    Some (Normal tt, set_nth results (ResultArray (acc ++ scan (skipn i items))) h).
Proof.
  induction n as [n IH] using lt_wf_ind. intros i h acc E Hc Hr.
  rewrite loop_heap_step. unfold candles_length. rewrite Hc.
  destruct (Z_le_dec (Z.of_nat i) (Z.of_nat (length items) - 3)) as [L | G].
  - destruct (window_at items i) as [w |] eqn:W.
    2: { exfalso.
         destruct (nth_error_defined items i ltac:(lia)) as [c1 E1].
         destruct (nth_error_defined items (i + 1) ltac:(lia)) as [c2 E2].
         destruct (nth_error_defined items (i + 2) ltac:(lia)) as [c3 E3].
         rewrite (window_at_nth _ _ _ _ _ E1 E2 E3) in W. discriminate W. }
    rewrite (loop_body_heap_window _ _ _ _ _ _ _ Hc Hr W).
    rewrite (IH (length items - S i) ltac:(lia) (S i) _ (acc ++ window_events w) eq_refl).
    + rewrite set_nth_twice, (scan_skipn_window _ _ _ W), app_assoc. reflexivity.
    + rewrite (candles_at_set_nth _ _ _ _ _ Hr). exact Hc.
    + exact (results_at_set_nth _ _ _ _ Hr).
  - rewrite scan_short by (rewrite length_skipn; lia). rewrite app_nil_r.
    rewrite set_nth_same; [reflexivity |].
    unfold results_at in Hr.
    destruct (nth_error h results) as [[cs | evs] |]; try discriminate Hr.
    injection Hr as ->. reflexivity.
Qed.

(** On an array of candles the action allocates one array, fills it
    with the scan and changes nothing else. *)
Lemma fvgAnalysisAction_heap_scan (candlesticks : Ref) (h : Heap) (console : Console)
    (items : list Candlestick) :
  candles_at h candlesticks = Some items ->
  fvgAnalysisAction_heap candlesticks h console =
  Some (mkActionState true (success_message items) (Some (length h)),
        h ++ [ResultArray (scan items)], console).
Proof.
  intros Hc. unfold fvgAnalysisAction_heap, try_block_heap, new_results, success_message.
  assert (Hc' : candles_at (h ++ [ResultArray []]) candlesticks = Some items).
  { unfold candles_at in *.
    destruct (nth_error h candlesticks) as [o |] eqn:E; [| discriminate Hc].
    rewrite nth_error_app1 by (apply nth_error_Some; rewrite E; discriminate).
    rewrite E. exact Hc. }
  assert (Hr : results_at (h ++ [ResultArray []]) (length h) = Some []).
  { unfold results_at. rewrite nth_error_app2, Nat.sub_diag by lia. reflexivity. }
  rewrite Hc'. destruct (length items <? 3)%nat eqn:L.
  - apply Nat.ltb_lt in L. rewrite (scan_short _ L). reflexivity.
  - rewrite (loop_heap_scan _ _ items (length items - 0) 0 _ [] eq_refl Hc' Hr).
    cbn [skipn app]. rewrite set_nth_last. reflexivity.
Qed.

(** C8. Two invocations on the same input yield identical outputs.  On
    the heap, where the action could read and write any object: run on
    two heaps (such as the heap before a first call and the heap after
    it, whatever the caller did to the array it got) that hold the same
    candles under the input reference, the action returns states with
    the same success flag and the same message, whose data are arrays of
    the same events, field for field, these being the events of the
    embedding above; each run allocates a new array at an address not in
    use before, and leaves every existing object, the input array
    included, and the console as they were. *)
Theorem C8_same_input_same_output (h1 h2 : Heap) (input1 input2 : Ref)
    (console1 console2 : Console) (candlesticks : list Candlestick) :
  candles_at h1 input1 = Some candlesticks ->
  candles_at h2 input2 = Some candlesticks ->
  exists (state1 state2 : ActionState Ref) (h1' h2' : Heap)
         (results1 results2 : Ref) (events : list FvgAnalysisResult),
    fvgAnalysisAction_heap input1 h1 console1 = Some (state1, h1', console1) /\
    fvgAnalysisAction_heap input2 h2 console2 = Some (state2, h2', console2) /\
    isSuccess state1 = true /\ isSuccess state2 = true /\
    message state1 = message state2 /\
    data state1 = Some results1 /\ data state2 = Some results2 /\
    results_at h1' results1 = Some events /\
    results_at h2' results2 = Some events /\
    data (outcome candlesticks console1) = Some events /\
    results1 = length h1 /\ results2 = length h2 /\
    h1' = h1 ++ [ResultArray events] /\ h2' = h2 ++ [ResultArray events] /\
    candles_at h1' input1 = Some candlesticks /\
    candles_at h2' input2 = Some candlesticks.
Proof.
  intros H1 H2.
  exists (mkActionState true (success_message candlesticks) (Some (length h1))),
         (mkActionState true (success_message candlesticks) (Some (length h2))),
         (h1 ++ [ResultArray (scan candlesticks)]),
         (h2 ++ [ResultArray (scan candlesticks)]),
         (length h1), (length h2), (scan candlesticks).
  rewrite (fvgAnalysisAction_heap_scan _ _ console1 _ H1),
          (fvgAnalysisAction_heap_scan _ _ console2 _ H2), outcome_scan.
  cbn [isSuccess message data].
  assert (R : forall h : Heap,
             results_at (h ++ [ResultArray (scan candlesticks)]) (length h)
             = Some (scan candlesticks)).
  { intros h. unfold results_at. rewrite nth_error_app2, Nat.sub_diag by lia.
    reflexivity. }
  assert (K : forall (h : Heap) (r : Ref) (o : Obj),
             candles_at h r = Some candlesticks ->
             candles_at (h ++ [o]) r = Some candlesticks).
  { intros h r o Hc. unfold candles_at in *.
    destruct (nth_error h r) as [x |] eqn:E; [| discriminate Hc].
    rewrite nth_error_app1 by (apply nth_error_Some; rewrite E; discriminate).
    rewrite E. exact Hc. }
  repeat split; auto.
Qed.

Lemma C8_same_input_same_output_witness :
  (candles_at heap_before 0 = Some test_bullish /\
   candles_at heap_after 0 = Some test_bullish) /\
  exists (state1 state2 : ActionState Ref) (h1' h2' : Heap)
         (results1 results2 : Ref) (events : list FvgAnalysisResult),
    fvgAnalysisAction_heap 0 heap_before [] = Some (state1, h1', []) /\
    fvgAnalysisAction_heap 0 heap_after [] = Some (state2, h2', []) /\
    isSuccess state1 = true /\ isSuccess state2 = true /\
    message state1 = message state2 /\
    data state1 = Some results1 /\ data state2 = Some results2 /\
    results_at h1' results1 = Some events /\
    results_at h2' results2 = Some events /\
    data (outcome test_bullish []) = Some events /\
    results1 = length heap_before /\ results2 = length heap_after /\
    h1' = heap_before ++ [ResultArray events] /\
    h2' = heap_after ++ [ResultArray events] /\
    candles_at h1' 0 = Some test_bullish /\
    candles_at h2' 0 = Some test_bullish.
Proof.
  assert (H1 : candles_at heap_before 0 = Some test_bullish) by reflexivity.
  assert (H2 : candles_at heap_after 0 = Some test_bullish) by (vm_compute; reflexivity).
  split; [split; assumption |].
  exact (C8_same_input_same_output heap_before heap_after 0 0 [] [] test_bullish H1 H2).
Defined.

Lemma window_events_positive (c1 c2 c3 : Candlestick) :
  is_candle c1 = true -> is_candle c3 = true ->
  Forall (fun event => Number.gt (Fvg.gapSize event) Number.zero = true)
    (window_events (c1, c2, c3)).
Proof.
  intros V1 V3. unfold is_candle in V1, V3.
  repeat (match goal with
          | H : _ && _ = true |- _ => apply andb_true_iff in H; destruct H
          end).
  unfold window_events. cbn [is_bullish is_bearish].
  destruct (Number.gt (low c3) (high c1)) eqn:G;
    destruct (Number.lt (high c3) (low c1)) eqn:B; cbn [app];
    repeat constructor; cbn [bullish_event bearish_event Fvg.gapSize];
    apply gt_sub_positive; assumption.
Qed.

(** C9. On every array of candles whose fields are numbers, malformed
    candles included, every event of the result has [gapSize > 0]. *)
Theorem C9_gap_positive (candlesticks : list Candlestick) (console : Console) :
  Forall (fun c => is_candle c = true) candlesticks ->
  exists events : list FvgAnalysisResult,
    data (outcome candlesticks console) = Some events /\
    Forall (fun event => Number.gt (Fvg.gapSize event) Number.zero = true) events.
Proof.
  intros V. rewrite outcome_scan. cbn [data].
  exists (scan candlesticks). split; [reflexivity |].
  unfold scan. apply Forall_flat_map. apply Forall_forall.
  intros [[c1 c2] c3] Hin. apply windows_In in Hin. destruct Hin as (I1 & _ & I3).
  rewrite Forall_forall in V.
  apply window_events_positive; apply V; assumption.
Qed.

Lemma C9_gap_positive_witness :
  Forall (fun c => is_candle c = true) degenerate /\
  exists events : list FvgAnalysisResult,
    data (outcome degenerate []) = Some events /\
    Forall (fun event => Number.gt (Fvg.gapSize event) Number.zero = true) events.
Proof.
  assert (V : Forall (fun c => is_candle c = true) degenerate)
    by (repeat constructor).
  split; [exact V |].
  exact (C9_gap_positive degenerate [] V).
Defined.

(** C10. The events are ordered by window start index and, within one
    window, the bullish event comes before the bearish one: the result
    is the concatenation, over the windows in order, of the bullish
    event (if the window passes the bullish test) followed by the
    bearish event (if it passes the bearish test).  When the window at
    [i] passes both tests its bullish event is immediately before its
    bearish event, right after the events of the windows before [i]. *)
Theorem C10_bullish_before_bearish (candlesticks : list Candlestick) (console : Console) :
  data (outcome candlesticks console) =
    Some (flat_map
            (fun w => (if is_bullish w then [bullish_event w] else []) ++
                      (if is_bearish w then [bearish_event w] else []))
            (windows candlesticks)) /\
  (forall i : nat, nth_error (windows candlesticks) i = window_at candlesticks i) /\
  (forall (i : nat) (w : Window),
     window_at candlesticks i = Some w ->
     is_bullish w = true -> is_bearish w = true ->
     exists before after : list FvgAnalysisResult,
       data (outcome (firstn (i + 2) candlesticks) console) = Some before /\
       data (outcome candlesticks console) =
       Some (before ++ bullish_event w :: bearish_event w :: after)).
Proof.
  split; [rewrite outcome_scan; reflexivity |].
  split; [apply nth_error_windows |].
  intros i w W Hb Hs. rewrite !outcome_scan. cbn [data].
  eexists. eexists. split; [reflexivity |].
  rewrite (scan_split _ _ _ W). unfold window_events. rewrite Hb, Hs.
  reflexivity.
Qed.

Lemma C10_bullish_before_bearish_witness :
  (window_at degenerate 0 = Some (odd1, odd2, odd3) /\
   is_bullish (odd1, odd2, odd3) = true /\
   is_bearish (odd1, odd2, odd3) = true) /\
  exists before after : list FvgAnalysisResult,
    data (outcome (firstn (0 + 2) degenerate) []) = Some before /\
    data (outcome degenerate []) =
    Some (before ++ bullish_event (odd1, odd2, odd3)
                 :: bearish_event (odd1, odd2, odd3) :: after).
Proof.
  split.
  - repeat split; reflexivity.
  - exact (proj2 (proj2 (C10_bullish_before_bearish degenerate []))
             0 (odd1, odd2, odd3) eq_refl eq_refl eq_refl).
Defined.

(** * More about the detector *)

Lemma In_scan (candlesticks : list Candlestick) (event : FvgAnalysisResult) :
  In event (scan candlesticks) <->
  exists (i : nat) (w : Window),
    window_at candlesticks i = Some w /\ In event (window_events w).
Proof.
  unfold scan. rewrite in_flat_map. split.
  - intros (w & Hw & He). apply In_nth_error in Hw. destruct Hw as [i Hi].
    rewrite nth_error_windows in Hi. exists i, w. split; assumption.
  - intros (i & w & Hw & He). rewrite <- nth_error_windows in Hw.
    exists w. split; [eapply nth_error_In; eassumption | assumption].
Qed.

Lemma In_window_events (w : Window) (event : FvgAnalysisResult) :
  In event (window_events w) <->
  (is_bullish w = true /\ event = bullish_event w) \/
  (is_bearish w = true /\ event = bearish_event w).
Proof.
  unfold window_events. rewrite in_app_iff.
  destruct (is_bullish w); destruct (is_bearish w); cbn [In];
    intuition congruence.
Qed.

(** X1. No event without a window: an event is in the result exactly
    when some window of the input passes the bullish test and the event
    is its bullish event, or passes the bearish test and the event is
    its bearish event. *)
Theorem detector_sound_complete (candlesticks : list Candlestick)
    (console : Console) (event : FvgAnalysisResult) :
  (exists events : list FvgAnalysisResult,
     data (outcome candlesticks console) = Some events /\ In event events) <->
  (exists (i : nat) (candle1 candle2 candle3 : Candlestick),
     nth_error candlesticks i = Some candle1 /\
     nth_error candlesticks (i + 1) = Some candle2 /\
     nth_error candlesticks (i + 2) = Some candle3 /\
     ((Number.gt (low candle3) (high candle1) = true /\
       event = Fvg.mk bullish (time candle1) (time candle3)
                 (Number.sub (low candle3) (high candle1))
                 (Number.add (Number.add (volume candle1) (volume candle2))
                    (volume candle3))) \/
      (Number.lt (high candle3) (low candle1) = true /\
       event = Fvg.mk bearish (time candle1) (time candle3)
                 (Number.sub (low candle1) (high candle3))
                 (Number.add (Number.add (volume candle1) (volume candle2))
                    (volume candle3))))).
Proof.
  rewrite outcome_scan. cbn [data]. split.
  - intros (events & E & Hin). injection E as <-.
    apply In_scan in Hin. destruct Hin as (i & [[c1 c2] c3] & W & Hin).
    apply In_window_events in Hin. exists i, c1, c2, c3.
    unfold window_at in W.
    destruct (nth_error candlesticks i) as [a |]; [| discriminate].
    destruct (nth_error candlesticks (i + 1)) as [b |]; [| discriminate].
    destruct (nth_error candlesticks (i + 2)) as [c |]; [| discriminate].
    injection W as -> -> ->. repeat split; try reflexivity. exact Hin.
  - intros (i & c1 & c2 & c3 & H1 & H2 & H3 & Hev).
    exists (scan candlesticks). split; [reflexivity |].
    apply In_scan. exists i, (c1, c2, c3).
    split; [apply window_at_nth; assumption |].
    apply In_window_events. exact Hev.
Qed.

Lemma windows_app (candlesticks extra : list Candlestick) :
  exists more : list Window,
    windows (candlesticks ++ extra) = windows candlesticks ++ more.
Proof.
  induction candlesticks as [| c1 rest IH].
  - exists (windows extra). reflexivity.
  - destruct rest as [| c2 [| c3 rest]].
    + eexists. reflexivity.
    + eexists. reflexivity.
    + destruct IH as [more IH]. exists more.
      change (windows ((c1 :: c2 :: c3 :: rest) ++ extra))
        with ((c1, c2, c3) :: windows ((c2 :: c3 :: rest) ++ extra)).
      rewrite IH. reflexivity.
Qed.

(** X2. Appending candles leaves the events already found in place: the
    result on [candlesticks ++ extra] starts with the result on
    [candlesticks]. *)
Theorem detector_prefix_stable (candlesticks extra : list Candlestick)
    (console : Console) :
  exists events more : list FvgAnalysisResult,
    data (outcome candlesticks console) = Some events /\
    data (outcome (candlesticks ++ extra) console) = Some (events ++ more).
Proof.
  rewrite !outcome_scan. cbn [data].
  destruct (windows_app candlesticks extra) as [more E].
  exists (scan candlesticks), (flat_map window_events more).
  split; [reflexivity |]. unfold scan. rewrite E, flat_map_app. reflexivity.
Qed.

Lemma is_candle_fields (c : Candlestick) :
  is_candle c = true ->
  Number.is_number (high c) = true /\ Number.is_number (low c) = true /\
  Number.is_number (volume c) = true /\ Number.is_number (time c) = true.
Proof.
  unfold is_candle. intros H.
  repeat (match goal with
          | H : _ && _ = true |- _ => apply andb_true_iff in H; destruct H
          end).
  repeat split; assumption.
Qed.

Lemma filter_none {A : Type} (f : A -> bool) (l : list A) :
  (forall x : A, In x l -> f x = false) -> filter f l = [].
Proof.
  induction l as [| x l IH]; intros H; [reflexivity |].
  cbn [filter]. rewrite (H x (or_introl eq_refl)).
  apply IH. intros y Hy. apply H. right. exact Hy.
Qed.

Lemma well_formed_window_once (candlesticks : list Candlestick) (w : Window) :
  Forall (fun c => well_formed c = true) candlesticks ->
  In w (windows candlesticks) -> qualifies_twice w = false.
Proof.
  intros WF Hin. destruct w as [[c1 c2] c3].
  apply windows_In in Hin. destruct Hin as (I1 & _ & I3).
  rewrite Forall_forall in WF.
  pose proof (WF _ I1) as W1. pose proof (WF _ I3) as W3.
  unfold well_formed in W1, W3.
  apply andb_true_iff in W1. destruct W1 as [V1 L1].
  apply andb_true_iff in W3. destruct W3 as [V3 L3].
  destruct (is_candle_fields _ V1) as (Vh1 & Vl1 & _).
  destruct (is_candle_fields _ V3) as (Vh3 & Vl3 & _).
  unfold qualifies_twice. cbn [is_bullish is_bearish].
  destruct (Number.gt (low c3) (high c1)) eqn:G;
    destruct (Number.lt (high c3) (low c1)) eqn:B; try reflexivity.
  exfalso.
  exact (gaps_exclusive _ _ _ _ Vh1 Vl1 Vh3 Vl3 L1 L3 G B).
Qed.

(** X3. When every candle is made of doubles and has its low at or
    below its high, no window passes both tests: the number of events
    is the number of qualifying windows, and at most [length - 2]. *)
Theorem well_formed_event_count (candlesticks : list Candlestick) (console : Console) :
  Forall (fun c => well_formed c = true) candlesticks ->
  option_map (@length FvgAnalysisResult) (data (outcome candlesticks console)) =
    Some (count_windows qualifies candlesticks) /\
  (count_windows qualifies candlesticks <= length candlesticks - 2)%nat.
Proof.
  intros WF. rewrite outcome_scan. cbn [data option_map]. unfold scan, count_windows.
  rewrite length_flat_map_window_events, filter_both_either.
  rewrite (filter_none qualifies_twice (windows candlesticks))
    by (intros w Hw; exact (well_formed_window_once _ _ WF Hw)).
  cbn [length]. rewrite Nat.add_0_r. split; [reflexivity |].
  rewrite <- length_windows. apply filter_length_le.
Qed.

Lemma well_formed_event_count_witness :
  Forall (fun c => well_formed c = true) test_bearish /\
  option_map (@length FvgAnalysisResult) (data (outcome test_bearish [])) =
    Some (count_windows qualifies test_bearish) /\
  (count_windows qualifies test_bearish <= length test_bearish - 2)%nat.
Proof.
  assert (WF : Forall (fun c => well_formed c = true) test_bearish)
    by (repeat constructor).
  split; [exact WF |].
  exact (well_formed_event_count test_bearish [] WF).
Defined.

(** X4. Whatever the candles, a window yields at most two events: the
    result has at most [2 * (length - 2)] events. *)
Theorem event_count_bound (candlesticks : list Candlestick) (console : Console) :
  exists events : list FvgAnalysisResult,
    data (outcome candlesticks console) = Some events /\
    (length events <= 2 * (length candlesticks - 2))%nat.
Proof.
  rewrite outcome_scan. cbn [data]. exists (scan candlesticks).
  split; [reflexivity |]. unfold scan.
  rewrite length_flat_map_window_events, <- length_windows.
  pose proof (filter_length_le is_bullish (windows candlesticks)).
  pose proof (filter_length_le is_bearish (windows candlesticks)).
  lia.
Qed.

(** ** Time order *)

Lemma lt_le (x y : number) : Number.lt x y = true -> Number.le x y = true.
Proof.
  unfold Number.lt, Number.le, SFltb, SFleb.
  destruct (SFcompare x y) as [[| |] |]; intros H; try discriminate H; reflexivity.
Qed.

Lemma SFcompare_refl (x : spec_float) :
  is_nan x = false -> SFcompare x x = Some Eq.
Proof.
  destruct x as [s | s | | s m e]; intros H; try discriminate H.
  - reflexivity.
  - destruct s; reflexivity.
  - cbn [SFcompare]. rewrite Z.compare_refl, Pos.compare_cont_refl.
    destruct s; reflexivity.
Qed.

Lemma lt_le_refl (x y : number) : Number.lt x y = true -> Number.le x x = true.
Proof.
  unfold Number.lt, Number.le, SFltb, SFleb. intros H.
  rewrite SFcompare_refl; [reflexivity |].
  destruct x; try reflexivity. discriminate H.
Qed.

Lemma StronglySorted_app {A : Type} (R : A -> A -> Prop) (l1 l2 : list A) :
  StronglySorted R l1 -> StronglySorted R l2 ->
  (forall a b : A, In a l1 -> In b l2 -> R a b) ->
  StronglySorted R (l1 ++ l2).
Proof.
  induction l1 as [| a l1 IH]; intros S1 S2 H; [exact S2 |].
  apply StronglySorted_inv in S1. destruct S1 as [S1 F1].
  cbn [app]. constructor.
  - apply IH; [assumption | assumption |].
    intros x y Hx Hy. apply H; [right; assumption | assumption].
  - apply Forall_app. split; [assumption |].
    apply Forall_forall. intros y Hy. apply H; [left; reflexivity | assumption].
Qed.

Lemma window_events_start (w : Window) (event : FvgAnalysisResult) :
  In event (window_events w) ->
  Fvg.startTime event = time (fst (fst w)) /\
  Fvg.endTime event = time (snd w).
Proof.
  intros H. apply In_window_events in H. destruct w as [[c1 c2] c3].
  destruct H as [[_ ->] | [_ ->]]; split; reflexivity.
Qed.

Lemma scan_start_in (candlesticks : list Candlestick) (event : FvgAnalysisResult) :
  In event (scan candlesticks) ->
  exists c : Candlestick, In c candlesticks /\ Fvg.startTime event = time c.
Proof.
  intros H. unfold scan in H. apply in_flat_map in H.
  destruct H as ([[c1 c2] c3] & Hw & He).
  apply windows_In in Hw. apply window_events_start in He.
  exists c1. split; [apply Hw | apply He].
Qed.

Lemma scan_sorted (candlesticks : list Candlestick) :
  StronglySorted earlier candlesticks ->
  StronglySorted by_start (scan candlesticks).
Proof.
  induction candlesticks as [| c1 rest IH]; intros S; [constructor |].
  apply StronglySorted_inv in S. destruct S as [S F].
  specialize (IH S).
  destruct rest as [| c2 [| c3 rest]]; try constructor.
  change (scan (c1 :: c2 :: c3 :: rest))
    with (window_events (c1, c2, c3) ++ scan (c2 :: c3 :: rest)).
  assert (E12 : earlier c1 c2) by (rewrite Forall_forall in F; apply F; left; reflexivity).
  apply StronglySorted_app; [| exact IH |].
  - assert (Hsame : forall a b, In a (window_events (c1, c2, c3)) ->
                           In b (window_events (c1, c2, c3)) -> by_start a b).
    { intros a b Ha Hb. apply window_events_start in Ha, Hb. unfold by_start.
      destruct Ha as [-> _]. destruct Hb as [-> _]. cbn [fst].
      exact (lt_le_refl _ _ E12). }
    destruct (window_events (c1, c2, c3)) as [| a [| b l]] eqn:E.
    + constructor.
    + constructor; constructor.
    + pose proof (length_window_events (c1, c2, c3)) as L. rewrite E in L.
      destruct l as [| x l].
      * constructor; [constructor; constructor | constructor; [| constructor]].
        apply Hsame; cbn; auto.
      * exfalso. destruct (is_bullish (c1, c2, c3)); destruct (is_bearish (c1, c2, c3));
          cbn [length] in L; lia.
  - intros a b Ha Hb. apply window_events_start in Ha. destruct Ha as [Ha _].
    apply scan_start_in in Hb. destruct Hb as (c & Hc & Hb).
    unfold by_start. rewrite Ha, Hb. cbn [fst]. apply lt_le.
    rewrite Forall_forall in F. apply F. exact Hc.
Qed.

Lemma windows_earlier (candlesticks : list Candlestick) (c1 c2 c3 : Candlestick) :
  StronglySorted earlier candlesticks ->
  In (c1, c2, c3) (windows candlesticks) -> earlier c1 c3.
Proof.
  induction candlesticks as [| a rest IH]; intros S Hin; [contradiction |].
  apply StronglySorted_inv in S. destruct S as [S F].
  destruct rest as [| b [| c rest]]; try contradiction.
  change (windows (a :: b :: c :: rest))
    with ((a, b, c) :: windows (b :: c :: rest)) in Hin.
  destruct Hin as [E | Hin].
  - injection E as <- <- <-. rewrite Forall_forall in F. apply F. right. left. reflexivity.
  - apply IH; assumption.
Qed.

(** X5. On candles in strictly ascending order of time (each candle
    timed before every later one, as the action's notes assume), every
    event starts before it ends and the events come in ascending order
    of start time. *)
Theorem ascending_times_sorted_events (candlesticks : list Candlestick)
    (console : Console) :
  StronglySorted earlier candlesticks ->
  exists events : list FvgAnalysisResult,
    data (outcome candlesticks console) = Some events /\
    Forall (fun event =>
              Number.lt (Fvg.startTime event) (Fvg.endTime event) = true) events /\
    StronglySorted by_start events.
Proof.
  intros S. rewrite outcome_scan. cbn [data]. exists (scan candlesticks).
  split; [reflexivity |]. split; [| apply scan_sorted; exact S].
  apply Forall_forall. intros event Hin. unfold scan in Hin.
  apply in_flat_map in Hin. destruct Hin as ([[c1 c2] c3] & Hw & He).
  apply window_events_start in He. destruct He as [-> ->]. cbn [fst snd].
  exact (windows_earlier _ _ _ _ S Hw).
Qed.

Lemma test_multiple_ascending : StronglySorted earlier test_multiple.
Proof. repeat constructor. Qed.

Lemma ascending_times_sorted_events_witness :
  StronglySorted earlier test_multiple /\
  exists events : list FvgAnalysisResult,
    data (outcome test_multiple []) = Some events /\
    Forall (fun event =>
              Number.lt (Fvg.startTime event) (Fvg.endTime event) = true) events /\
    StronglySorted by_start events.
Proof.
  split; [exact test_multiple_ascending |].
  exact (ascending_times_sorted_events test_multiple [] test_multiple_ascending).
Defined.

(** ** Prices that are not numbers *)

Lemma SFltb_nan_l (x y : spec_float) : is_nan x = true -> SFltb x y = false.
Proof. destruct x; try discriminate. reflexivity. Qed.

Lemma SFltb_nan_r (x y : spec_float) : is_nan y = true -> SFltb x y = false.
Proof. destruct y; try discriminate. destruct x; reflexivity. Qed.

(** X6. NaN prices raise nothing and report nothing: a window whose
    first candle, or whose third candle, has NaN for both its high and
    its low leaves the results as they were. *)
Theorem nan_window_silent (candlesticks : list Candlestick) (i : nat)
    (candle1 candle2 candle3 : Candlestick) (results : list FvgAnalysisResult) :
  window_at candlesticks i = Some (candle1, candle2, candle3) ->
  (is_nan (high candle1) = true /\ is_nan (low candle1) = true) \/
  (is_nan (high candle3) = true /\ is_nan (low candle3) = true) ->
  loop_body candlesticks i results = Normal results.
Proof.
  intros W N. rewrite (loop_body_window _ _ _ _ W).
  unfold window_events. cbn [is_bullish is_bearish]. unfold Number.gt, Number.lt.
  destruct N as [[Nh Nl] | [Nh Nl]].
  - rewrite (SFltb_nan_l _ _ Nh), (SFltb_nan_r _ _ Nl). cbn [app].
    rewrite app_nil_r. reflexivity.
  - rewrite (SFltb_nan_r _ _ Nl), (SFltb_nan_l _ _ Nh). cbn [app].
    rewrite app_nil_r. reflexivity.
Qed.

Lemma nan_window_silent_witness :
  (window_at [bull1; bull2; mkCandlestick S754_nan S754_nan S754_nan S754_nan
                                   (Number.of_Z 1) (Number.of_Z 3000)] 0
   = Some (bull1, bull2, mkCandlestick S754_nan S754_nan S754_nan S754_nan
                           (Number.of_Z 1) (Number.of_Z 3000))) /\
  loop_body [bull1; bull2; mkCandlestick S754_nan S754_nan S754_nan S754_nan
                             (Number.of_Z 1) (Number.of_Z 3000)] 0 [] = Normal [].
Proof.
  split; [reflexivity |].
  apply (nan_window_silent _ 0 bull1 bull2
           (mkCandlestick S754_nan S754_nan S754_nan S754_nan
              (Number.of_Z 1) (Number.of_Z 3000)) []).
  - reflexivity.
  - right. split; reflexivity.
Defined.

(** X7. With three candles or more the action reports that the
    analysis ran, and its data is empty exactly when no window passes
    either test. *)
Theorem completed_and_empty (candlesticks : list Candlestick) (console : Console) :
  (3 <= length candlesticks)%nat ->
  isSuccess (outcome candlesticks console) = true /\
  message (outcome candlesticks console) = "FVG analysis completed successfully."%string /\
  (data (outcome candlesticks console) = Some [] <->
   forall (i : nat) (w : Window),
     window_at candlesticks i = Some w -> is_bullish w = false /\ is_bearish w = false).
Proof.
  intros L. rewrite outcome_scan. cbn [isSuccess message data].
  split; [reflexivity |]. split.
  - unfold success_message.
    replace (length candlesticks <? 3)%nat with false
      by (symmetry; apply Nat.ltb_ge; exact L).
    reflexivity.
  - split.
    + intros E i w W. injection E as E.
      assert (Hw : window_events w = []).
      { destruct (window_events w) as [| event l] eqn:Ew; [reflexivity |].
        exfalso. assert (Hin : In event (scan candlesticks)).
        { apply In_scan. exists i, w. split; [exact W |]. rewrite Ew. left. reflexivity. }
        rewrite E in Hin. exact Hin. }
      unfold window_events in Hw.
      destruct (is_bullish w); destruct (is_bearish w); try discriminate Hw.
      split; reflexivity.
    + intros H. f_equal.
      destruct (scan candlesticks) as [| event l] eqn:E; [reflexivity |].
      exfalso. assert (Hin : In event (scan candlesticks)) by (rewrite E; left; reflexivity).
      apply In_scan in Hin. destruct Hin as (i & w & W & Hin).
      destruct (H i w W) as [Hb Hs]. unfold window_events in Hin.
      rewrite Hb, Hs in Hin. exact Hin.
Qed.

Lemma completed_and_empty_witness :
  (3 <= length test_bullish)%nat /\
  message (outcome test_bullish []) = "FVG analysis completed successfully."%string.
Proof.
  assert (L : (3 <= length test_bullish)%nat) by (apply Nat.leb_le; reflexivity).
  split; [exact L |].
  exact (proj1 (proj2 (completed_and_empty test_bullish [] L))).
Defined.

(** * Validation of the market data *)

Lemma typeof_number (v : JsValue) :
  String.eqb (typeof v) "number" = true <-> exists x : number, v = JsNumber x.
Proof.
  split.
  - destruct v; cbn; intros H; try discriminate H. eexists. reflexivity.
  - intros [x ->]. reflexivity.
Qed.

Lemma number_of_typeof (v : JsValue) :
  number_of v = None <-> String.eqb (typeof v) "number" = false.
Proof. destruct v; cbn; split; intros H; try discriminate H; reflexivity. Qed.

(** An item passes the test of the loop exactly when it is a candle. *)
Lemma item_rejected_false (item : JsValue) :
  item_rejected item = Normal false <-> exists c, as_candlestick item = Some c.
Proof.
  destruct item as [| | b | x | s | items | props];
    try (split; [intros H; discriminate H | intros [c H]; discriminate H]).
  unfold item_rejected, field_not_number, as_candlestick. cbn [read_field field_name].
  destruct (lookup "open" props) as [| | ? | o | ? | ? | ?];
    try (split; [intros H; discriminate H | intros [c H]; discriminate H]).
  destruct (lookup "close" props) as [| | ? | cl | ? | ? | ?];
    try (split; [intros H; discriminate H | intros [c H]; discriminate H]).
  destruct (lookup "high" props) as [| | ? | h | ? | ? | ?];
    try (split; [intros H; discriminate H | intros [c H]; discriminate H]).
  destruct (lookup "low" props) as [| | ? | l | ? | ? | ?];
    try (split; [intros H; discriminate H | intros [c H]; discriminate H]).
  destruct (lookup "volume" props) as [| | ? | v | ? | ? | ?];
    try (split; [intros H; discriminate H | intros [c H]; discriminate H]).
  destruct (lookup "time" props) as [| | ? | t | ? | ? | ?];
    try (split; [intros H; discriminate H | intros [c H]; discriminate H]).
  split; [intros _; eexists; reflexivity | intros _; reflexivity].
Qed.

Lemma item_rejected_throw (item : JsValue) (e : JsError) :
  item_rejected item = Throw e ->
  is_nullish item = true /\
  exists msg : string, e = TypeError msg.
Proof.
  destruct item as [| | b | x | s | items | props]; cbn; intros H;
    try discriminate H.
  - injection H as <-. split; [reflexivity | eexists; reflexivity].
  - injection H as <-. split; [reflexivity | eexists; reflexivity].
  - exfalso. unfold item_rejected, field_not_number in H. cbn [read_field] in H.
    unfold or_else in H.
    repeat (match type of H with
            | context [negb ?b] => destruct b; cbn [negb] in H
            end); discriminate H.
Qed.

Lemma item_rejected_nullish (item : JsValue) :
  is_nullish item = true -> exists e : JsError, item_rejected item = Throw e.
Proof.
  destruct item; intros H; try discriminate H; eexists; reflexivity.
Qed.

Lemma validate_items_true (items : list JsValue) :
  validate_items items = Normal true <->
  exists candlesticks : list Candlestick, as_candlesticks_items items = Some candlesticks.
Proof.
  induction items as [| item rest IH].
  - split; [intros _; eexists; reflexivity | reflexivity].
  - cbn [validate_items as_candlesticks_items].
    pose proof (item_rejected_false item) as HI.
    destruct (item_rejected item) as [[|] | e].
    + split; [intros H; discriminate H |].
      intros [cs H]. destruct (as_candlestick item) as [c |]; [| discriminate H].
      destruct HI as [_ HI]. specialize (HI (ex_intro _ c eq_refl)). discriminate HI.
    + destruct HI as [HI _]. destruct (HI eq_refl) as [c ->].
      rewrite IH. split.
      * intros [cs ->]. eexists. reflexivity.
      * intros [cs H]. destruct (as_candlesticks_items rest) as [cs' |];
          [eexists; reflexivity | discriminate H].
    + split; [intros H; discriminate H |].
      intros [cs H]. destruct (as_candlestick item) as [c |]; [| discriminate H].
      destruct HI as [_ HI]. specialize (HI (ex_intro _ c eq_refl)). discriminate HI.
Qed.

Lemma validate_true (data : JsValue) :
  validateCandlestickData data = Normal true <->
  exists candlesticks : list Candlestick, as_candlesticks data = Some candlesticks.
Proof.
  destruct data as [| | b | x | s | items | props];
    try (split; [intros H; discriminate H | intros [c H]; discriminate H]).
  apply validate_items_true.
Qed.

(** X8. The type guard is exact: [validateCandlestickData] returns
    [true] exactly on an array all of whose items are objects with a
    number in each of [open], [close], [high], [low], [volume] and
    [time] (other properties are ignored), that is exactly when the data
    can be read as a [Candlestick[]]; on anything that is not an array
    it returns [false]. *)
Theorem validate_true_iff (data : JsValue) :
  (validateCandlestickData data = Normal true <->
   exists candlesticks : list Candlestick, as_candlesticks data = Some candlesticks) /\
  ((forall items : list JsValue, data <> JsArray items) ->
   validateCandlestickData data = Normal false).
Proof.
  split; [apply validate_true |].
  intros H. destruct data; try reflexivity. exfalso. exact (H items eq_refl).
Qed.

Lemma validate_items_throw (items : list JsValue) (e : JsError) :
  validate_items items = Throw e <->
  exists (good : list JsValue) (bad : JsValue) (rest : list JsValue),
    items = good ++ bad :: rest /\
    (exists cs : list Candlestick, as_candlesticks_items good = Some cs) /\
    read_field bad f_open = Throw e.
Proof.
  induction items as [| item items IH].
  - split; [intros H; discriminate H |].
    intros (good & bad & rest & E & _). destruct good; discriminate E.
  - cbn [validate_items].
    pose proof (item_rejected_false item) as HF.
    destruct (item_rejected item) as [[|] | e'] eqn:R.
    + split; [intros H; discriminate H |].
      intros (good & bad & rest & E & (cs & G) & B).
      destruct good as [| g good]; cbn [app] in E; injection E as E1 E2; subst.
      * destruct bad; cbn in B; try discriminate B; discriminate R.
      * cbn [as_candlesticks_items] in G.
        destruct (as_candlestick g) as [c |]; [| discriminate G].
        destruct HF as [_ HF]. specialize (HF (ex_intro _ c eq_refl)). discriminate HF.
    + destruct HF as [HF _]. destruct (HF eq_refl) as [c Hc].
      rewrite IH. split.
      * intros (good & bad & rest & -> & (cs & G) & B).
        exists (item :: good), bad, rest. split; [reflexivity |].
        split; [| exact B]. cbn [as_candlesticks_items]. rewrite Hc, G.
        eexists. reflexivity.
      * intros (good & bad & rest & E & (cs & G) & B).
        destruct good as [| g good]; cbn [app] in E; injection E as E1 E2; subst.
        -- destruct bad; cbn in B; try discriminate B; discriminate Hc.
        -- exists good, bad, rest. split; [reflexivity |]. split; [| exact B].
           cbn [as_candlesticks_items] in G. rewrite Hc in G.
           destruct (as_candlesticks_items good) as [cs' |];
             [eexists; reflexivity | discriminate G].
    + destruct (item_rejected_throw _ _ R) as [N _]. split.
      * intros H. injection H as <-. exists [], item, items.
        split; [reflexivity |]. split; [exists []; reflexivity |].
        destruct item; try discriminate N; cbn in R |- *;
          injection R as <-; reflexivity.
      * intros (good & bad & rest & E & (cs & G) & B).
        destruct good as [| g good]; cbn [app] in E; injection E as E1 E2; subst.
        -- destruct bad; try discriminate N; cbn in B, R; congruence.
        -- cbn [as_candlesticks_items] in G.
           destruct g; try discriminate N; discriminate G.
Qed.

(** X9. An item that is [null] or [undefined] does not make the
    validation return [false]: it throws.  The validation throws exactly
    on an array in which such an item comes after candles only, and the
    error is the [TypeError] of reading [open] off that item. *)
Theorem validate_throws_iff (data : JsValue) (e : JsError) :
  validateCandlestickData data = Throw e <->
  exists (good : list JsValue) (bad : JsValue) (rest : list JsValue),
    data = JsArray (good ++ bad :: rest) /\
    (exists cs : list Candlestick, as_candlesticks (JsArray good) = Some cs) /\
    is_nullish bad = true /\
    read_field bad f_open = Throw e.
Proof.
  destruct data as [| | b | x | s | items | props];
    try (split; [intros H; discriminate H
                | intros (good & bad & rest & E & _); discriminate E]).
  cbn [validateCandlestickData as_candlesticks]. rewrite validate_items_throw.
  split.
  - intros (good & bad & rest & -> & G & B). exists good, bad, rest.
    repeat split; try assumption.
    destruct bad; cbn in B; try discriminate B; reflexivity.
  - intros (good & bad & rest & E & G & _ & B). injection E as ->.
    exists good, bad, rest. repeat split; assumption.
Qed.

Lemma as_candlestick_object (c : Candlestick) :
  as_candlestick (candle_object c) = Some c.
Proof. destruct c. reflexivity. Qed.

Lemma as_candlesticks_objects (candlesticks : list Candlestick) :
  as_candlesticks_items (map candle_object candlesticks) = Some candlesticks.
Proof.
  induction candlesticks as [| c cs IH]; [reflexivity |].
  cbn [map as_candlesticks_items]. rewrite as_candlestick_object, IH. reflexivity.
Qed.

(** X10. Every array of candles passes the validation, whatever its
    numbers (NaN, infinities, a low above a high, times out of order),
    and reads back as the same candles. *)
Theorem validate_accepts_candles (candlesticks : list Candlestick) :
  validateCandlestickData (JsArray (map candle_object candlesticks)) = Normal true /\
  as_candlesticks (JsArray (map candle_object candlesticks)) = Some candlesticks.
Proof.
  split.
  - induction candlesticks as [| c cs IH]; [reflexivity |].
    cbn [validateCandlestickData map validate_items] in *.
    destruct (item_rejected_false (candle_object c)) as [_ H].
    rewrite (H (ex_intro _ c (as_candlestick_object c))). exact IH.
  - apply as_candlesticks_objects.
Qed.

(** * The market data request *)

Lemma encode_digits (d : Decimal.uint) :
  encodeURIComponent (NilEmpty.string_of_uint d) = NilEmpty.string_of_uint d.
Proof.
  induction d; cbn [NilEmpty.string_of_uint encodeURIComponent];
    try reflexivity;
    rewrite IHd; reflexivity.
Qed.

Lemma klines_query (timestamp : N) :
  buildQueryString (klines_params timestamp) =
  String.append "interval=1m&limit=1440&symbol=BTC-USDT&timestamp=" (decimal timestamp).
Proof.
  unfold buildQueryString.
  change (sort_strings (map fst (klines_params timestamp)))
    with ["interval"; "limit"; "symbol"; "timestamp"]%string.
  cbn [map].
  change (encoded_param "interval" (klines_params timestamp)) with "1m"%string.
  change (encoded_param "limit" (klines_params timestamp)) with "1440"%string.
  change (encoded_param "symbol" (klines_params timestamp)) with "BTC-USDT"%string.
  change (encoded_param "timestamp" (klines_params timestamp))
    with (encodeURIComponent (decimal timestamp)).
  unfold decimal. rewrite encode_digits. reflexivity.
Qed.

Lemma falsy_some (s : string) : s <> EmptyString -> falsy (Some s) = false.
Proof. intros H. cbn [falsy]. apply String.eqb_neq. exact H. Qed.

Lemma credentials_try (hmac : string -> string -> string) (env : Env)
    (network : Network) (w : World) (baseUrl apiKey apiSecret : string) :
  credentials env baseUrl apiKey apiSecret ->
  fetch_market_data_try hmac env network w =
  let request := klines_request hmac baseUrl apiKey apiSecret (now env) in
  let w' := mkWorld (logged w) (requests w ++ [request]) (timers w) in
  match network (length (requests w)) request with
  | Rejected t => (Rejected t, w')
  | Resolved response =>
    if negb (ok response) then
      match text response with
      | Rejected t => (Rejected t, w')
      | Resolved errorText =>
        (Rejected (ErrorObject
           (String.append "El API de BingX respondió con el estado "
              (String.append (decimal (status response))
                 (String.append ": " errorText)))), w')
      end
    else
      match json response with
      | Rejected t => (Rejected t, w')
      | Resolved data =>
        match validateCandlestickData data with
        | Throw e => (Rejected (thrown_of e), w')
        | Normal false => (Rejected (ErrorObject invalid_format), w')
        | Normal true =>
          (Resolved (mkActionState true market_data_ok (Some data)), w')
        end
      end
  end.
Proof.
  intros (Eu & Ek & Es & Nu & Nk & Ns). unfold fetch_market_data_try.
  rewrite Eu, Ek, Es, (falsy_some _ Nu), (falsy_some _ Nk), (falsy_some _ Ns).
  cbn [orb]. unfold fetch. reflexivity.
Qed.

(** X11. Without the three credentials (one unset, or empty) the
    action fails with the message about credentials, logs the error
    once and sends no request. *)
Theorem fetch_without_credentials (hmac : string -> string -> string) (env : Env)
    (network : Network) (w : World) :
  falsy (BINGX_API_URL env) || falsy (BINGX_API_KEY env) ||
  falsy (BINGX_API_SECRET env) = true ->
  fetchMarketDataAction hmac env network w =
  (mkActionState false credentials_missing None,
   console_error [Text "Error al obtener datos de mercado:";
                  Caught (ErrorObject credentials_missing)] w) /\
  requests (snd (fetchMarketDataAction hmac env network w)) = requests w.
Proof.
  intros H.
  assert (E : fetch_market_data_try hmac env network w =
              (Rejected (ErrorObject credentials_missing), w)).
  { unfold fetch_market_data_try.
    destruct (BINGX_API_URL env) as [u |]; [| reflexivity].
    destruct (BINGX_API_KEY env) as [k |]; [| reflexivity].
    destruct (BINGX_API_SECRET env) as [s |]; [| reflexivity].
    rewrite H. reflexivity. }
  unfold fetchMarketDataAction. rewrite E. split; reflexivity.
Qed.

Lemma fetch_without_credentials_witness :
  falsy (BINGX_API_URL no_key_env) ||
  falsy (BINGX_API_KEY no_key_env) ||
  falsy (BINGX_API_SECRET no_key_env)
  = true /\
  requests (snd (fetchMarketDataAction (fun _ _ => EmptyString)
                   no_key_env
                   (fun _ _ => Rejected (ErrorObject "offline"%string)) empty_world)) = [].
Proof.
  split; [reflexivity |].
  exact (proj2 (fetch_without_credentials (fun _ _ => EmptyString)
                  no_key_env
                  (fun _ _ => Rejected (ErrorObject "offline"%string)) empty_world eq_refl)).
Defined.

Lemma fetch_requests (hmac : string -> string -> string) (env : Env)
    (network : Network) (w : World) (baseUrl apiKey apiSecret : string) :
  credentials env baseUrl apiKey apiSecret ->
  requests (snd (fetchMarketDataAction hmac env network w)) =
  requests w ++ [klines_request hmac baseUrl apiKey apiSecret (now env)].
Proof.
  intros C. unfold fetchMarketDataAction. rewrite (credentials_try _ _ _ _ _ _ _ C).
  cbv zeta.
  destruct (network _ _) as [r | t]; [| reflexivity].
  destruct (ok r); cbn [negb].
  - destruct (json r) as [d | t]; [| reflexivity].
    destruct (validateCandlestickData d) as [[|] | e]; reflexivity.
  - destruct (text r); reflexivity.
Qed.

(** X12. With credentials the action sends one request and no more: a
    GET, with the key in the [X-BX-APIKEY] header, to the klines
    endpoint with the parameters in sorted order and the signature last,
    the signature being the HMAC under the secret of
    [interval=1m&limit=1440&symbol=BTC-USDT&timestamp=<now>]. *)
Theorem fetch_signed_request (hmac : string -> string -> string) (env : Env)
    (network : Network) (w : World) (baseUrl apiKey apiSecret : string) :
  credentials env baseUrl apiKey apiSecret ->
  let query :=
    String.append "interval=1m&limit=1440&symbol=BTC-USDT&timestamp="
                  (decimal (now env)) in
  requests (snd (fetchMarketDataAction hmac env network w)) =
  requests w ++
  [mkRequest
     (String.append baseUrl
        (String.append "/openApi/swap/v3/quote/klines?"
           (String.append query
              (String.append "&signature=" (hmac apiSecret query)))))
     "GET"
     [("Content-Type", "application/json"); ("X-BX-APIKEY", apiKey)]%string
     None].
Proof.
  intros C query. rewrite (fetch_requests _ _ _ _ _ _ _ C).
  unfold klines_request. rewrite klines_query. reflexivity.
Qed.

Lemma test_env_credentials :
  credentials test_env "http://dummy-api.com"%string "dummy-key"%string "dummy-secret"%string.
Proof. repeat split; discriminate. Qed.

Lemma fetch_signed_request_witness :
  credentials test_env "http://dummy-api.com"%string "dummy-key"%string "dummy-secret"%string /\
  map url (requests (snd (fetchMarketDataAction (fun _ _ => "5f3a"%string) test_env
                            (fun _ _ => Rejected (ErrorObject "offline"%string)) empty_world))) =
  ["http://dummy-api.com/openApi/swap/v3/quote/klines?interval=1m&limit=1440&symbol=BTC-USDT&timestamp=1670000000000&signature=5f3a"%string].
Proof.
  split; [exact test_env_credentials |].
  exact (f_equal (map url)
           (fetch_signed_request (fun _ _ => "5f3a"%string) test_env
              (fun _ _ => Rejected (ErrorObject "offline"%string)) empty_world
              _ _ _ test_env_credentials)).
Defined.

(** X13. The action succeeds exactly when the answer to its request is
    a response with [ok] whose JSON parses to an array of candles; on
    such an answer it returns the success state whose data is that JSON
    value as parsed (same items, same order), and logs nothing. *)
Theorem fetch_success_iff (hmac : string -> string -> string) (env : Env)
    (network : Network) (w : World) (baseUrl apiKey apiSecret : string) :
  credentials env baseUrl apiKey apiSecret ->
  (isSuccess (fst (fetchMarketDataAction hmac env network w)) = true <->
   exists (response : Response) (parsed : JsValue) (candlesticks : list Candlestick),
     network (length (requests w))
       (klines_request hmac baseUrl apiKey apiSecret (now env)) = Resolved response /\
     ok response = true /\ json response = Resolved parsed /\
     as_candlesticks parsed = Some candlesticks) /\
  (forall (response : Response) (parsed : JsValue) (candlesticks : list Candlestick),
     network (length (requests w))
       (klines_request hmac baseUrl apiKey apiSecret (now env)) = Resolved response ->
     ok response = true -> json response = Resolved parsed ->
     as_candlesticks parsed = Some candlesticks ->
     fst (fetchMarketDataAction hmac env network w) =
       mkActionState true market_data_ok (Some parsed) /\
     logged (snd (fetchMarketDataAction hmac env network w)) = logged w).
Proof.
  intros C. unfold fetchMarketDataAction. rewrite (credentials_try _ _ _ _ _ _ _ C).
  cbv zeta.
  destruct (network _ _) as [r | t].
  2: { split.
       - split; [intros H; discriminate H | intros (r & p & cs & H & _); discriminate H].
       - intros r p cs H. discriminate H. }
  destruct (ok r) eqn:Ok; cbn [negb].
  2: { split.
       - split; [destruct (text r); intros H; discriminate H |].
         intros (r' & p & cs & H & Ok' & _). injection H as <-. congruence.
       - intros r' p cs H Ok'. injection H as <-. congruence. }
  destruct (json r) as [d | t] eqn:J.
  2: { split.
       - split; [intros H; discriminate H |].
         intros (r' & p & cs & H & _ & J' & _). injection H as <-. congruence.
       - intros r' p cs H _ J'. injection H as <-. congruence. }
  pose proof (validate_true d) as V.
  destruct (validateCandlestickData d) as [[|] | e].
  - destruct V as [V _]. destruct (V eq_refl) as [cs Hcs]. split.
    + split; [| intros _; reflexivity].
      intros _. exists r, d, cs. repeat split; assumption.
    + intros r' p cs' H _ J' _. injection H as <-.
      rewrite J in J'. injection J' as <-. split; reflexivity.
  - assert (X : forall cs, as_candlesticks d <> Some cs).
    { intros cs A. destruct V as [_ V]. specialize (V (ex_intro _ cs A)). discriminate V. }
    split.
    + split; [intros H; discriminate H |].
      intros (r' & p & cs & H & _ & J' & A). injection H as <-.
      rewrite J in J'. injection J' as <-. exfalso. exact (X cs A).
    + intros r' p cs H _ J' A. injection H as <-.
      rewrite J in J'. injection J' as <-. exfalso. exact (X cs A).
  - assert (X : forall cs, as_candlesticks d <> Some cs).
    { intros cs A. destruct V as [_ V]. specialize (V (ex_intro _ cs A)). discriminate V. }
    split.
    + split; [intros H; discriminate H |].
      intros (r' & p & cs & H & _ & J' & A). injection H as <-.
      rewrite J in J'. injection J' as <-. exfalso. exact (X cs A).
    + intros r' p cs H _ J' A. injection H as <-.
      rewrite J in J'. injection J' as <-. exfalso. exact (X cs A).
Qed.

Lemma fetch_success_iff_witness :
  credentials test_env "http://dummy-api.com"%string "dummy-key"%string "dummy-secret"%string /\
  fst (fetchMarketDataAction (fun _ _ => EmptyString) test_env bullish_market empty_world) =
  mkActionState true market_data_ok (Some (JsArray (map candle_object test_bullish))) /\
  logged (snd (fetchMarketDataAction (fun _ _ => EmptyString) test_env bullish_market
                 empty_world)) = [].
Proof.
  split; [exact test_env_credentials |].
  exact (proj2 (fetch_success_iff (fun _ _ => EmptyString) test_env bullish_market
                  empty_world _ _ _ test_env_credentials)
           (mkResponse true 200 (Resolved EmptyString)
              (Resolved (JsArray (map candle_object test_bullish))))
           (JsArray (map candle_object test_bullish)) test_bullish
           eq_refl eq_refl eq_refl eq_refl).
Defined.

(** X14. A response whose JSON is not an array, such as an object that
    wraps the candles under a [data] property, is refused: the action
    fails with the message about the format. *)
Theorem fetch_rejects_envelope (hmac : string -> string -> string) (env : Env)
    (network : Network) (w : World) (baseUrl apiKey apiSecret : string)
    (response : Response) (parsed : JsValue) :
  credentials env baseUrl apiKey apiSecret ->
  network (length (requests w))
    (klines_request hmac baseUrl apiKey apiSecret (now env)) = Resolved response ->
  ok response = true -> json response = Resolved parsed ->
  (forall items : list JsValue, parsed <> JsArray items) ->
  fst (fetchMarketDataAction hmac env network w) =
  mkActionState false invalid_format None.
Proof.
  intros C N Ok J NA. unfold fetchMarketDataAction.
  rewrite (credentials_try _ _ _ _ _ _ _ C). cbv zeta. rewrite N, Ok, J. cbn [negb].
  destruct parsed; try reflexivity. exfalso. exact (NA items eq_refl).
Qed.

Lemma fetch_rejects_envelope_witness :
  credentials test_env "http://dummy-api.com"%string "dummy-key"%string "dummy-secret"%string /\
  fst (fetchMarketDataAction (fun _ _ => EmptyString) test_env
         (fun _ _ => Resolved
            (mkResponse true 200 (Resolved EmptyString)
               (Resolved (JsObject [("data"%string,
                                     JsArray (map candle_object test_bullish))]))))
         empty_world) =
  mkActionState false invalid_format None.
Proof.
  split; [exact test_env_credentials |].
  apply (fetch_rejects_envelope (fun _ _ => EmptyString) test_env
           (fun _ _ => Resolved
              (mkResponse true 200 (Resolved EmptyString)
                 (Resolved (JsObject [("data"%string,
                                       JsArray (map candle_object test_bullish))]))))
           empty_world _ _ _ _ _ test_env_credentials eq_refl eq_refl eq_refl).
  intros items H. discriminate H.
Defined.

(** X15. Whatever the environment and the network do, the action sends
    at most one request and awaits no timer; it logs one error when it
    fails and nothing when it succeeds, and a failure carries no data. *)
Theorem fetch_effects (hmac : string -> string -> string) (env : Env)
    (network : Network) (w : World) :
  let result := fetchMarketDataAction hmac env network w in
  (exists sent : list Request,
     requests (snd result) = requests w ++ sent /\ (length sent <= 1)%nat) /\
  timers (snd result) = timers w /\
  (isSuccess (fst result) = true -> logged (snd result) = logged w) /\
  (isSuccess (fst result) = false ->
   data (fst result) = None /\
   exists error : Thrown,
     logged (snd result) =
     logged w ++ [mkLogEntry level_error
                    [Text "Error al obtener datos de mercado:"; Caught error]] /\
     message (fst result) =
     message_or error "Error desconocido al obtener datos de mercado.").
Proof.
  cbv zeta. unfold fetchMarketDataAction, fetch_market_data_try, fetch.
  destruct (BINGX_API_URL env) as [u |];
    [destruct (BINGX_API_KEY env) as [k |];
     [destruct (BINGX_API_SECRET env) as [s |] |] |].
  2-4: (cbn; split; [exists []; rewrite app_nil_r; split; [reflexivity | cbn; lia] |];
        split; [reflexivity |]; split; [intros H; discriminate H |];
        intros _; split; [reflexivity |]; eexists; split; reflexivity).
  destruct (falsy (Some u) || falsy (Some k) || falsy (Some s)).
  - cbn; split; [exists []; rewrite app_nil_r; split; [reflexivity | cbn; lia] |];
      split; [reflexivity |]; split; [intros H; discriminate H |];
      intros _; split; [reflexivity |]; eexists; split; reflexivity.
  - destruct (network _ _) as [r | t];
      [destruct (ok r); cbn [negb];
       [destruct (json r) as [d | t];
        [destruct (validateCandlestickData d) as [[|] | e] |]
       | destruct (text r) as [x | t]] |];
      cbn; (split; [eexists; split; [reflexivity | cbn; lia] |]);
      (split; [reflexivity |]);
      (split; [intros H; try discriminate H; reflexivity |]);
      intros H; try discriminate H;
      (split; [reflexivity |]); eexists; split; reflexivity.
Qed.

(** ** The query string does not depend on the order of the keys *)









Lemma param_none (key : string) (paramsObj : list (string * string)) :
  ~ In key (map fst paramsObj) -> param key paramsObj = None.
Proof.
  induction paramsObj as [| [k v] rest IH]; intros H; [reflexivity |].
  cbn [param]. destruct (String.eqb_spec k key) as [-> | N].
  - exfalso. apply H. left. reflexivity.
  - apply IH. intros Hin. apply H. right. exact Hin.
Qed.




(** * Notifications *)

Lemma email_loop_step (network : Network) (request : Request) (attempt : nat)
    (lastError : option Thrown) (w : World) :
  email_loop network request attempt lastError w =
  if lt_dec attempt maxRetries then
    match email_attempt network request w with
    | (Resolved state, w') => (state, w')
    | (Rejected error, w') =>
      email_loop network request (S attempt) (Some error)
        (email_caught (S attempt) error w')
    end
  else (mkActionState false (last_error_message lastError) None, w).
Proof.
  simp email_loop. destruct (lt_dec attempt maxRetries); [| reflexivity].
  unfold email_loop_unfold_clause_1.
  destruct (email_attempt network request w) as [[state | error] w']; reflexivity.
Qed.

Lemma email_attempt_spec (network : Network) (request : Request) (w : World) :
  email_attempt network request w =
  (match attempt_error network request (length (requests w)) with
   | None => Resolved email_sent
   | Some error => Rejected error
   end,
   mkWorld (logged w) (requests w ++ [request]) (timers w)).
Proof.
  unfold email_attempt, attempt_error, fetch.
  destruct (network _ _) as [r | t]; [| reflexivity].
  destruct (ok r); cbn [negb]; [reflexivity |].
  destruct (text r); reflexivity.
Qed.

(** The error the loop reports after [budget] failures from the [n]-th
    request on. *)
Lemma email_loop_runs (network : Network) (request : Request) (budget : nat) :
  forall (attempt : nat) (lastError : option Thrown) (w : World),
    attempt + budget = maxRetries ->
    let k := failed_attempts network request (length (requests w)) budget in
    let result := email_loop network request attempt lastError w in
    requests (snd result) =
      requests w ++ repeat request (if (k <? budget)%nat then S k else budget) /\
    timers (snd result) = timers w ++ repeat 1000%N k /\
    length (logged (snd result)) = length (logged w) + k /\
    (k <= budget)%nat /\
    ((k < budget)%nat -> fst result = email_sent) /\
    (k = budget ->
     fst result =
     mkActionState false
       (last_error_message
          match budget with
          | O => lastError
          | S b => attempt_error network request (length (requests w) + b)
          end) None).
Proof.
  induction budget as [| budget IH]; intros attempt lastError w E; cbv zeta;
    rewrite email_loop_step.
  - destruct (lt_dec attempt maxRetries) as [L | _]; [lia |].
    cbn [failed_attempts snd fst repeat]. rewrite !app_nil_r.
    repeat split; try lia.
  - destruct (lt_dec attempt maxRetries) as [_ | G]; [| lia].
    rewrite email_attempt_spec. cbn [failed_attempts].
    destruct (attempt_error network request (length (requests w))) as [error |] eqn:A.
    + specialize (IH (S attempt) (Some error)
                    (email_caught (S attempt) error
                       (mkWorld (logged w) (requests w ++ [request]) (timers w)))
                    ltac:(lia)).
      cbv zeta in IH. cbn [email_caught sleep console_error requests timers logged] in IH.
      rewrite length_app in IH. cbn [length] in IH.
      replace (length (requests w) + 1) with (S (length (requests w))) in IH by lia.
      set (k := failed_attempts network request (S (length (requests w))) budget) in *.
      destruct IH as (R & T & Lg & B & Hs & Hf).
      change (S k <? S budget)%nat with (k <? budget)%nat.
      repeat split.
      * rewrite R, <- app_assoc. f_equal.
        destruct (k <? budget)%nat; reflexivity.
      * rewrite T, <- app_assoc. reflexivity.
      * rewrite Lg, length_app. cbn [length]. lia.
      * lia.
      * intros H. apply Hs. lia.
      * intros H. rewrite Hf by lia. f_equal. f_equal.
        destruct budget as [| b].
        -- replace (length (requests w) + 0) with (length (requests w)) by lia.
           rewrite A. reflexivity.
        -- replace (S (length (requests w)) + b) with (length (requests w) + S b) by lia.
           reflexivity.
    + cbn [snd fst repeat Nat.ltb Nat.leb requests timers logged]. rewrite app_nil_r.
      repeat split; try lia.
Qed.

(** X17. Without the mail settings (one unset, or empty) the email
    action fails with the message about configuration and does nothing
    else: no request, no log, no wait. *)
Theorem email_without_config (recipientEmail subject message : string)
    (env : Env) (network : Network) (w : World) :
  falsy (EMAIL_API_URL env) || falsy (EMAIL_API_KEY env) = true ->
  sendEmailNotificationAction recipientEmail subject message env network w =
  (mkActionState false email_config_missing None, w).
Proof.
  intros H. unfold sendEmailNotificationAction.
  destruct (EMAIL_API_URL env) as [u |]; [| reflexivity].
  destruct (EMAIL_API_KEY env) as [k |]; [| reflexivity].
  rewrite H. reflexivity.
Qed.

Lemma email_without_config_witness :
  falsy (EMAIL_API_URL no_key_env) || falsy (EMAIL_API_KEY no_key_env) = true /\
  sendEmailNotificationAction "a@b.c" "FVG" "gap" no_key_env flaky_mail empty_world =
  (mkActionState false email_config_missing None, empty_world).
Proof.
  split; [reflexivity |].
  exact (email_without_config "a@b.c" "FVG" "gap" no_key_env flaky_mail empty_world eq_refl).
Defined.

Lemma email_with_config (recipientEmail subject message : string)
    (env : Env) (network : Network) (w : World) (emailApiUrl emailApiKey : string) :
  email_config env emailApiUrl emailApiKey ->
  sendEmailNotificationAction recipientEmail subject message env network w =
  email_loop network
    (email_request emailApiUrl emailApiKey
       (email_payload recipientEmail subject message)) 0 None w.
Proof.
  intros (Eu & Ek & Nu & Nk). unfold sendEmailNotificationAction.
  rewrite Eu, Ek, (falsy_some _ Nu), (falsy_some _ Nk). reflexivity.
Qed.

Lemma email_loop_logs (network : Network) (request : Request) (budget : nat) :
  forall (attempt : nat) (lastError : option Thrown) (w : World),
    attempt + budget = maxRetries ->
    logged (snd (email_loop network request attempt lastError w)) =
    logged w ++ failure_log network request (length (requests w)) attempt budget.
Proof.
  induction budget as [| budget IH]; intros attempt lastError w E;
    rewrite email_loop_step.
  - destruct (lt_dec attempt maxRetries) as [L | _]; [lia |].
    cbn [snd failure_log]. rewrite app_nil_r. reflexivity.
  - destruct (lt_dec attempt maxRetries) as [_ | G]; [| lia].
    rewrite email_attempt_spec. cbn [failure_log].
    destruct (attempt_error network request (length (requests w))) as [error |].
    + rewrite (IH (S attempt) (Some error)) by lia.
      cbn [email_caught sleep console_error logged requests].
      rewrite length_app. cbn [length].
      replace (length (requests w) + 1) with (S (length (requests w))) by lia.
      rewrite <- app_assoc. reflexivity.
    + cbn [snd logged]. rewrite app_nil_r. reflexivity.
Qed.

Lemma failure_log_length (network : Network) (request : Request) (budget : nat) :
  forall n attempt : nat,
    length (failure_log network request n attempt budget) =
    failed_attempts network request n budget.
Proof.
  induction budget as [| budget IH]; intros n attempt; [reflexivity |].
  cbn [failure_log failed_attempts].
  destruct (attempt_error network request n); [| reflexivity].
  cbn [length]. rewrite IH. reflexivity.
Qed.

Lemma failure_log_nth (network : Network) (request : Request) (budget : nat) :
  forall n attempt j : nat,
    j < failed_attempts network request n budget ->
    exists error : Thrown,
      attempt_error network request (n + j) = Some error /\
      nth_error (failure_log network request n attempt budget) j =
      Some (attempt_entry (attempt + j + 1) error).
Proof.
  induction budget as [| budget IH]; intros n attempt j H;
    cbn [failed_attempts failure_log] in *; [lia |].
  destruct (attempt_error network request n) as [error |] eqn:A; [| lia].
  destruct j as [| j].
  - exists error. rewrite Nat.add_0_r. split; [exact A |].
    cbn [nth_error]. replace (attempt + 0 + 1) with (S attempt) by lia. reflexivity.
  - destruct (IH (S n) (S attempt) j ltac:(lia)) as (e & Ae & Ne).
    exists e. replace (n + S j) with (S n + j) by lia. split; [exact Ae |].
    cbn [nth_error]. rewrite Ne. f_equal. f_equal. lia.
Qed.

(** X18. The email action sends the same POST (the service URL, the
    bearer key, the payload of recipient, subject and message) once per
    attempt and at most three times; after every failed attempt, the
    third included, it logs at error level [Attempt k - Error sending
    email notification:] with the error it caught, [k] being the number
    of the attempt, and waits one second; it stops at the first accepted
    attempt. *)
Theorem email_retry_effects (recipientEmail subject message : string)
    (env : Env) (network : Network) (w : World) (emailApiUrl emailApiKey : string) :
  email_config env emailApiUrl emailApiKey ->
  let request :=
    mkRequest emailApiUrl "POST"
      [ ("Content-Type"%string, "application/json"%string);
        ("Authorization"%string, String.append "Bearer " emailApiKey) ]
      (Some (email_payload recipientEmail subject message)) in
  let failures := failed_attempts network request (length (requests w)) 3 in
  let result := sendEmailNotificationAction recipientEmail subject message env network w in
  (failures <= 3)%nat /\
  requests (snd result) = requests w ++ repeat request (Nat.min (S failures) 3) /\
  timers (snd result) = timers w ++ repeat 1000%N failures /\
  length (logged (snd result)) = length (logged w) + failures /\
  isSuccess (fst result) = (failures <? 3)%nat /\
  exists entries : list LogEntry,
    logged (snd result) = logged w ++ entries /\
    length entries = failures /\
    forall j : nat,
      j < failures ->
      exists error : Thrown,
        attempt_error network request (length (requests w) + j) = Some error /\
        nth_error entries j =
        Some (mkLogEntry level_error
                [Text (String.append "Attempt "
                         (String.append (decimal (N.of_nat (j + 1)))
                            " - Error sending email notification:"));
                 Caught error]).
Proof.
  intros C. cbv zeta. rewrite (email_with_config _ _ _ _ _ _ _ _ C).
  change (email_request emailApiUrl emailApiKey
            (email_payload recipientEmail subject message))
    with (mkRequest emailApiUrl "POST"
            [ ("Content-Type"%string, "application/json"%string);
              ("Authorization"%string, String.append "Bearer " emailApiKey) ]
            (Some (email_payload recipientEmail subject message))).
  set (request := mkRequest _ _ _ _).
  destruct (email_loop_runs network request 3 0 None w eq_refl)
    as (R & T & Lg & B & Hs & Hf).
  pose proof (email_loop_logs network request 3 0 None w eq_refl) as Le.
  set (k := failed_attempts network request (length (requests w)) 3) in *.
  split; [exact B |]. split.
  { rewrite R. f_equal. f_equal. destruct (Nat.ltb_spec k 3); lia. }
  split; [exact T |]. split; [exact Lg |]. split.
  { destruct (Nat.ltb_spec k 3) as [L | G].
    - rewrite (Hs L). reflexivity.
    - rewrite (Hf ltac:(lia)). reflexivity. }
  exists (failure_log network request (length (requests w)) 0 3).
  split; [exact Le |]. split; [apply failure_log_length |].
  intros j Hj.
  destruct (failure_log_nth network request 3 (length (requests w)) 0 j Hj)
    as (error & A & N).
  exists error. split; [exact A |]. rewrite N. reflexivity.
Qed.

Lemma test_env_email_config :
  email_config test_env "http://mail.test/send" "mail-key".
Proof. repeat split; discriminate. Qed.

Lemma email_retry_effects_witness :
  email_config test_env "http://mail.test/send" "mail-key" /\
  length (requests (snd (sendEmailNotificationAction "a@b.c" "FVG" "gap" test_env
                           flaky_mail empty_world))) = 3 /\
  timers (snd (sendEmailNotificationAction "a@b.c" "FVG" "gap" test_env
                 flaky_mail empty_world)) = [1000%N; 1000%N] /\
  isSuccess (fst (sendEmailNotificationAction "a@b.c" "FVG" "gap" test_env
                    flaky_mail empty_world)) = true /\
  length (logged (snd (sendEmailNotificationAction "a@b.c" "FVG" "gap" test_env
                         flaky_mail empty_world))) = 2.
Proof.
  split; [exact test_env_email_config |].
  destruct (email_retry_effects "a@b.c" "FVG" "gap" test_env flaky_mail empty_world
              _ _ test_env_email_config) as (_ & R & T & L & S & _).
  split; [rewrite R; reflexivity |]. split; [exact T |]. split; [exact S | exact L].
Defined.

(** X19. The email action succeeds exactly when one of the first three
    requests is answered [ok]; when all three fail it returns a failure
    whose message is that of the third error (or the fallback text when
    what was thrown is not an [Error]). *)
Theorem email_outcome (recipientEmail subject message : string)
    (env : Env) (network : Network) (w : World) (emailApiUrl emailApiKey : string) :
  email_config env emailApiUrl emailApiKey ->
  let request :=
    email_request emailApiUrl emailApiKey
      (email_payload recipientEmail subject message) in
  let first := length (requests w) in
  let result := sendEmailNotificationAction recipientEmail subject message env network w in
  (isSuccess (fst result) = true <->
   attempt_error network request first = None \/
   attempt_error network request (first + 1) = None \/
   attempt_error network request (first + 2) = None) /\
  (isSuccess (fst result) = true -> fst result = email_sent) /\
  (forall third : Thrown,
     isSuccess (fst result) = false ->
     attempt_error network request (first + 2) = Some third ->
     fst result =
     mkActionState false
       (message_or third "Unknown error sending email notification.") None).
Proof.
  intros C. cbv zeta. rewrite (email_with_config _ _ _ _ _ _ _ _ C).
  set (request := email_request _ _ _).
  destruct (email_loop_runs network request 3 0 None w eq_refl)
    as (_ & _ & _ & B & Hs & Hf).
  cbv zeta in B, Hs, Hf.
  replace (length (requests w) + 1) with (S (length (requests w))) by lia.
  replace (length (requests w) + 2) with (S (S (length (requests w)))) in * by lia.
  cbn [failed_attempts] in B, Hs, Hf.
  destruct (attempt_error network request (length (requests w))) as [e1 |].
  2: { rewrite (Hs ltac:(lia)). repeat split; auto. intros third H. discriminate H. }
  destruct (attempt_error network request (S (length (requests w)))) as [e2 |].
  2: { rewrite (Hs ltac:(lia)). repeat split; auto. intros third H. discriminate H. }
  destruct (attempt_error network request (S (S (length (requests w))))) as [e3 |].
  2: { rewrite (Hs ltac:(lia)). repeat split; auto. intros third H. discriminate H. }
  rewrite (Hf eq_refl). cbn [isSuccess]. repeat split.
  - intros H. discriminate H.
  - intros [H | [H | H]]; discriminate H.
  - intros H. discriminate H.
  - intros third _ E. injection E as <-. reflexivity.
Qed.

Lemma email_outcome_witness :
  email_config test_env "http://mail.test/send" "mail-key" /\
  fst (sendEmailNotificationAction "a@b.c" "FVG" "gap" test_env flaky_mail empty_world)
  = email_sent.
Proof.
  split; [exact test_env_email_config |].
  apply (proj1 (proj2 (email_outcome "a@b.c" "FVG" "gap" test_env flaky_mail empty_world
                         _ _ test_env_email_config))).
  apply (proj2 (proj1 (email_outcome "a@b.c" "FVG" "gap" test_env flaky_mail empty_world
                         _ _ test_env_email_config))).
  right. right. reflexivity.
Defined.

Lemma email_loop_logged (network : Network) (request : Request) (budget : nat) :
  forall (attempt : nat) (lastError : option Thrown) (w : World),
    attempt + budget = maxRetries ->
    exists more : list LogEntry,
      logged (snd (email_loop network request attempt lastError w)) = logged w ++ more.
Proof.
  induction budget as [| budget IH]; intros attempt lastError w E;
    rewrite email_loop_step.
  - destruct (lt_dec attempt maxRetries) as [L | _]; [lia |].
    exists []. cbn [snd]. rewrite app_nil_r. reflexivity.
  - destruct (lt_dec attempt maxRetries) as [_ | G]; [| lia].
    rewrite email_attempt_spec.
    destruct (attempt_error network request (length (requests w))) as [error |].
    + destruct (IH (S attempt) (Some error)
                  (email_caught (S attempt) error
                     (mkWorld (logged w) (requests w ++ [request]) (timers w)))
                  ltac:(lia)) as [more H].
      rewrite H. cbn [email_caught sleep console_error logged].
      rewrite <- app_assoc. eexists. reflexivity.
    + exists []. cbn [snd logged]. rewrite app_nil_r. reflexivity.
Qed.

Lemma email_logged (recipientEmail subject message : string)
    (env : Env) (network : Network) (w : World) :
  exists more : list LogEntry,
    logged (snd (sendEmailNotificationAction recipientEmail subject message
                   env network w)) = logged w ++ more.
Proof.
  unfold sendEmailNotificationAction.
  destruct (EMAIL_API_URL env) as [u |];
    [destruct (EMAIL_API_KEY env) as [k |] |];
    try (exists []; cbn [snd]; rewrite app_nil_r; reflexivity).
  destruct (falsy (Some u) || falsy (Some k)).
  - exists []. cbn [snd]. rewrite app_nil_r. reflexivity.
  - apply (email_loop_logged network _ 3 0 None w eq_refl).
Qed.

(** X20. Dispatching logs the in-app notification first, whatever
    happens to the email, and then reports what the email action
    reports: success when the email was accepted, and otherwise a
    failure without data whose message is the email action's message
    after [Notification dispatch failed: ]; it sends no request of its
    own. *)
Theorem dispatch_outcome (userId recipientEmail title message : string)
    (env : Env) (network : Network) (w : World) :
  let result :=
    dispatchFvgNotificationsAction userId recipientEmail title message env network w in
  let notified :=
    mkLogEntry level_log
      [Text (String.append "In-App Notification for User "
               (String.append userId
                  (String.append ": "
                     (String.append title (String.append " - " message)))))] in
  let email :=
    sendEmailNotificationAction recipientEmail title message env network
      (mkWorld (logged w ++ [notified]) (requests w) (timers w)) in
  (exists rest : list LogEntry, logged (snd result) = logged w ++ notified :: rest) /\
  isSuccess (fst result) = isSuccess (fst email) /\
  (isSuccess (fst email) = false ->
   fst result =
   mkActionState false
     (String.append "Notification dispatch failed: " (message_of (fst email))) None) /\
  requests (snd result) = requests (snd email) /\
  timers (snd result) = timers (snd email).
Proof.
  cbv zeta. unfold dispatchFvgNotificationsAction, sendInAppNotificationAction.
  cbn [isSuccess negb]. unfold console_log, template.
  cbn [String.concat].
  replace (String.append message EmptyString) with message.
  2: { clear. induction message as [| c m IH]; [reflexivity |].
       cbn [String.append]. rewrite <- IH. reflexivity. }
  set (w1 := mkWorld _ (requests w) (timers w)).
  destruct (email_logged recipientEmail title message env network w1) as [more L].
  destruct (sendEmailNotificationAction recipientEmail title message env network w1)
    as [emailResult w2].
  cbn [fst snd] in *. destruct (isSuccess emailResult) eqn:S; cbn [negb fst snd].
  - rewrite L. subst w1. cbn [logged]. rewrite <- app_assoc.
    split; [eexists; reflexivity |]. split; [reflexivity |].
    split; [intros H; discriminate H |]. split; reflexivity.
  - unfold console_error. cbn [logged requests timers]. rewrite L. subst w1.
    cbn [logged]. rewrite <- !app_assoc.
    split; [eexists; reflexivity |]. split; [reflexivity |].
    split; [| split; reflexivity].
    intros _. cbn [String.concat].
    replace (String.append (message_of emailResult) EmptyString)
      with (message_of emailResult); [reflexivity |].
    generalize (message_of emailResult). clear.
    intros s. induction s as [| c s IH]; [reflexivity |].
    cbn [String.append]. rewrite <- IH. reflexivity.
Qed.

(** * The route *)

Lemma fetch_success_data (hmac : string -> string -> string) (env : Env)
    (network : Network) (w : World) :
  isSuccess (fst (fetchMarketDataAction hmac env network w)) = true ->
  exists (parsed : JsValue) (candlesticks : list Candlestick),
    data (fst (fetchMarketDataAction hmac env network w)) = Some parsed /\
    as_candlesticks parsed = Some candlesticks.
Proof.
  unfold fetchMarketDataAction, fetch_market_data_try, fetch.
  destruct (BINGX_API_URL env) as [u |];
    [destruct (BINGX_API_KEY env) as [k |];
     [destruct (BINGX_API_SECRET env) as [s |] |] |];
    try (intros H; discriminate H).
  destruct (falsy (Some u) || falsy (Some k) || falsy (Some s));
    [intros H; discriminate H |].
  destruct (network _ _) as [r | t]; [| intros H; discriminate H].
  destruct (ok r); cbn [negb];
    [| destruct (text r); intros H; discriminate H].
  destruct (json r) as [d | t]; [| intros H; discriminate H].
  pose proof (validate_true d) as V.
  destruct (validateCandlestickData d) as [[|] | e]; try (intros H; discriminate H).
  intros _. destruct V as [V _]. destruct (V eq_refl) as [cs Hcs].
  exists d, cs. split; [reflexivity | exact Hcs].
Qed.

(** X21. The route runs the detector on validated candles only, and it
    stores nothing when the fetch fails: every run of the route is
    covered by the embedding, and a failed fetch gives status 500 with
    the message of the fetch and leaves the store untouched. *)
Theorem route_fetch_failure {Row : Type}
    (store : list FvgAnalysisResult -> ActionState (list Row))
    (hmac : string -> string -> string) (env : Env) (network : Network)
    (w : RouteWorld) :
  (exists (response : HttpResponse Row) (w' : RouteWorld),
     GET store hmac env network w = Some (response, w')) /\
  (isSuccess (fst (fetchMarketDataAction hmac env network (outside w))) = false ->
   GET store hmac env network w =
   Some (mkHttpResponse 500
           (ErrorBody (message (fst (fetchMarketDataAction hmac env network (outside w))))),
         mkRouteWorld (snd (fetchMarketDataAction hmac env network (outside w)))
           (analysis_console w) (store_calls w))).
Proof.
  unfold GET.
  pose proof (fetch_success_data hmac env network (outside w)) as D.
  destruct (fetchMarketDataAction hmac env network (outside w)) as [state outside'].
  cbn [fst snd] in *. destruct (isSuccess state) eqn:S; cbn [negb].
  - split; [| intros H; discriminate H].
    destruct (D eq_refl) as (parsed & cs & -> & ->).
    rewrite fvgAnalysisAction_scan. cbn [isSuccess negb data].
    destruct (isSuccess (store (scan cs))); cbn [negb]; eexists; eexists; reflexivity.
  - split; [eexists; eexists; reflexivity |]. intros _. reflexivity.
Qed.

(** X22. When the fetch succeeds the route calls the store once, with
    exactly the events the detector finds in the fetched candles, and
    the detector logs nothing; the response is 200 with the stored rows
    when the store succeeds and 500 with the store's message when it
    fails.  The route's own branch for a failed analysis is never
    taken. *)
Theorem route_stores_events {Row : Type}
    (store : list FvgAnalysisResult -> ActionState (list Row))
    (hmac : string -> string -> string) (env : Env) (network : Network)
    (w : RouteWorld) (parsed : JsValue) (candlesticks : list Candlestick) :
  isSuccess (fst (fetchMarketDataAction hmac env network (outside w))) = true ->
  data (fst (fetchMarketDataAction hmac env network (outside w))) = Some parsed ->
  as_candlesticks parsed = Some candlesticks ->
  exists events : list FvgAnalysisResult,
    data (outcome candlesticks (analysis_console w)) = Some events /\
    GET store hmac env network w =
    Some (if isSuccess (store events)
          then mkHttpResponse 200
                 (StoredBody "Market data fetched, analyzed, and stored successfully."
                    (data (store events)))
          else mkHttpResponse 500 (ErrorBody (message (store events))),
          mkRouteWorld (snd (fetchMarketDataAction hmac env network (outside w)))
            (analysis_console w) (store_calls w ++ [events])).
Proof.
  intros S D A. unfold GET.
  destruct (fetchMarketDataAction hmac env network (outside w)) as [state outside'].
  cbn [fst snd] in *. rewrite S, D, A. cbn [negb].
  rewrite outcome_scan, fvgAnalysisAction_scan. cbn [isSuccess negb data].
  exists (scan candlesticks). split; [reflexivity |].
  destruct (isSuccess (store (scan candlesticks))); reflexivity.
Qed.

Lemma route_stores_events_witness :
  isSuccess (fst (fetchMarketDataAction (fun _ _ => EmptyString) test_env
                    bullish_market (outside fresh_route))) = true /\
  exists events : list FvgAnalysisResult,
    data (outcome test_bullish (analysis_console fresh_route)) = Some events /\
    option_map (fun r => store_calls (snd r))
      (GET echo_store (fun _ _ => EmptyString) test_env bullish_market fresh_route)
    = Some [events].
Proof.
  split; [reflexivity |].
  destruct (route_stores_events echo_store (fun _ _ => EmptyString) test_env
              bullish_market fresh_route
              (JsArray (map candle_object test_bullish)) test_bullish
              eq_refl eq_refl eq_refl) as (events & E & G).
  exists events. split; [exact E |]. rewrite G. reflexivity.
Defined.
